(** * WebRequest: the life cycle of one resource load

    A shallow embedding of [WebKit/android/WebCoreSupport/WebRequest.cpp].
    The object's members are a record, the member functions are computations
    in a state monad that can crash (a failed [ASSERT], a null pointer) and
    the collaborators the file only calls (the URL request of the network
    stack, the Java input stream, the loader client on the WebCore thread)
    are observed through logs and answer scripts carried by the world. *)

From Stdlib Require Import ZArith List String Ascii Bool Lia Arith.
From Stdlib Require Import Strings.Byte.
Import ListNotations.

Local Open Scope string_scope.
Local Open Scope Z_scope.
Local Open Scope list_scope.

(** ** Data model *)

(** Modelled from the spec: the [LoadState] enumeration is declared in
    WebRequest.h, which is not part of the sources; the order of its values is
    the one of the spec's data model, with [Cancelled] between [GotData] and
    [Finished] as the comparisons of [cancel] require. *)
Inductive LoadState : Type :=
  | Created | Started | Response | GotData | Cancelled | Finished | Deleted.

Definition LoadState_rank (s : LoadState) : Z :=
  match s with
  | Created => 0 | Started => 1 | Response => 2 | GotData => 3
  | Cancelled => 4 | Finished => 5 | Deleted => 6
  end.

Definition state_ltb (a b : LoadState) : bool := LoadState_rank a <? LoadState_rank b.
Definition state_leb (a b : LoadState) : bool := LoadState_rank a <=? LoadState_rank b.
Definition state_eqb (a b : LoadState) : bool := LoadState_rank a =? LoadState_rank b.

(** [const int kInitialReadBufSize = 32768;] *)
Definition kInitialReadBufSize : Z := 32768.

(** A parsed URL: only its text and its scheme are looked at. *)
Record GURL : Type := mkGURL_fields { spec : string; scheme : string }.

Definition SchemeIs (u : GURL) (s : string) : bool := String.eqb (scheme u) s.

(** [request->status()]: the two predicates the file asks of it. *)
Record URLRequestStatus : Type :=
  { is_success : bool; is_io_pending : bool }.

(** The network stack's request object, as far as this file reads it. *)
Record URLRequest : Type := { url : GURL; status : URLRequestStatus }.

(** [net::IOBuffer]: every [new] yields a buffer of its own; [buf_id] is its
    identity, [buf_size] the capacity it was allocated with. *)
Record IOBuffer : Type := { buf_id : nat; buf_size : Z }.

(** [WebResponse] is built by one of two constructors, from a request or from
    its five fields, and [setUrl] rewrites its URL. *)
Inductive WebResponse : Type :=
  | WebResponse_of_request (request : option URLRequest)
  | WebResponse_of_fields (url_ mimeType : string) (expectedSize : Z)
                          (encoding : string) (httpStatusCode : Z)
  | setUrl (response : WebResponse) (url_ : string).

(** The calls of [WebUrlLoaderClient] that are posted to the main thread. *)
Inductive Notification : Type :=
  | didReceiveResponse (response : WebResponse)
  | willSendRequest (response : WebResponse)
  | authRequired (authInfo : string)
  | didReceiveData (buffer : option IOBuffer) (size : Z)
  | didReceiveAndroidFileData (data : list byte)
  | didReceiveDataUrl (data : string)
  | didFail (response : WebResponse)
  | didFinishLoading.

(** The calls made on [m_request]. *)
Inductive TransportCall : Type :=
  | call_SetExtraRequestHeaders (headers : string)
  | call_set_referrer (referrer : string)
  | call_set_method (method : string)
  | call_AppendBytesToUpload (data : list byte)
  | call_set_context (isPrivateBrowsing : bool)
  | call_Start
  | call_Cancel
  | call_SetAuth (username password : string)
  | call_CancelAuth
  | call_Read (buffer : IOBuffer) (size : Z).

(** What one [URLRequest::Read] answers: its return value, the value left in
    [*bytesRead] and the request's status afterwards. *)
Record ReadResult : Type :=
  { rr_ret : bool; rr_bytes : Z; rr_status : URLRequestStatus }.

(** What one [BrowserFrame.readFromStream] answers: the returned size and the
    contents of the Java byte array afterwards. *)
Record StreamRead : Type := { sr_size : Z; sr_array : list byte }.

Record WebResourceRequest : Type :=
  { wr_url : string; wr_userAgent : string; wr_requestHeaders : string;
    wr_referrer : string; wr_method : string }.

(** The members of [WebRequest].  A null pointer is [None]; the loader client
    is a handle. *)
Record WebRequest : Type := mkWebRequest
  { m_urlLoader : option nat;
    m_request : option URLRequest;
    m_networkBuffer : option IOBuffer;
    m_inputStream : Z;
    m_androidUrl : bool;
    m_url : string;
    m_userAgent : string;
    m_loadState : LoadState }.

(** The object together with what surrounds it: the tasks posted to the main
    thread, the calls made on the transport, the number of [IOBuffer]s
    allocated so far, and the answers the transport and the input stream will
    give to the next reads. *)
Record World : Type := mkWorld
  { self : WebRequest;
    mainThread : list Notification;
    calls : list TransportCall;
    buffers_allocated : nat;
    io_reads : list ReadResult;
    stream_reads : list StreamRead }.

Definition with_loadState (s : LoadState) (r : WebRequest) : WebRequest :=
  mkWebRequest (m_urlLoader r) (m_request r) (m_networkBuffer r) (m_inputStream r)
               (m_androidUrl r) (m_url r) (m_userAgent r) s.

Definition with_networkBuffer (b : option IOBuffer) (r : WebRequest) : WebRequest :=
  mkWebRequest (m_urlLoader r) (m_request r) b (m_inputStream r)
               (m_androidUrl r) (m_url r) (m_userAgent r) (m_loadState r).

Definition with_request (q : option URLRequest) (r : WebRequest) : WebRequest :=
  mkWebRequest (m_urlLoader r) q (m_networkBuffer r) (m_inputStream r)
               (m_androidUrl r) (m_url r) (m_userAgent r) (m_loadState r).

Definition with_urlLoader (l : option nat) (r : WebRequest) : WebRequest :=
  mkWebRequest l (m_request r) (m_networkBuffer r) (m_inputStream r)
               (m_androidUrl r) (m_url r) (m_userAgent r) (m_loadState r).

Definition with_self (f : WebRequest -> WebRequest) (w : World) : World :=
  mkWorld (f (self w)) (mainThread w) (calls w) (buffers_allocated w)
          (io_reads w) (stream_reads w).

Definition post (n : Notification) (w : World) : World :=
  mkWorld (self w) (mainThread w ++ [n]) (calls w) (buffers_allocated w)
          (io_reads w) (stream_reads w).

Definition log_call (c : TransportCall) (w : World) : World :=
  mkWorld (self w) (mainThread w) (calls w ++ [c]) (buffers_allocated w)
          (io_reads w) (stream_reads w).

(** ** The monad: state, crashes and unanswered reads *)

Inductive Fault : Type :=
  | AssertionFailed (message : string)
  | NullDereference (pointer : string).

(** [Starved]: the answer script ran out, the external call has not returned. *)
Inductive result (A : Type) : Type :=
  | Returned (a : A)
  | Crashed (f : Fault)
  | Starved.
Arguments Returned {A} a.
Arguments Crashed {A} f.
Arguments Starved {A}.

Definition M (A : Type) : Type := World -> result (A * World).

Definition ret {A} (a : A) : M A := fun w => Returned (a, w).

Definition bind {A B} (m : M A) (k : A -> M B) : M B :=
  fun w => match m w with
           | Returned (a, w') => k a w'
           | Crashed f => Crashed f
           | Starved => Starved
           end.

Notation "x <- c1 ;; c2" := (bind c1 (fun x => c2))
  (at level 61, c1 at next level, right associativity).
Notation "c1 ;; c2" := (bind c1 (fun _ => c2))
  (at level 61, right associativity).

Definition gets {A} (f : WebRequest -> A) : M A := fun w => Returned (f (self w), w).
Definition modify (f : WebRequest -> WebRequest) : M unit :=
  fun w => Returned (tt, with_self f w).
Definition crash {A} (f : Fault) : M A := fun _ => Crashed f.

(** [ASSERT(assertion, ...)]: logs and calls [CRASH()] when the assertion fails. *)
Definition ASSERT (assertion : bool) (message : string) : M unit :=
  if assertion then ret tt else crash (AssertionFailed message).

(** Modelled from the spec: [WebUrlLoaderClient::maybeCallOnMainThread] is not
    part of the sources; the spec's notifier schedules exactly one invocation
    of the callback on the owner thread, in the order posted.  The call goes
    through [m_urlLoader], so a null loader is a null dereference. *)
Definition maybeCallOnMainThread (task : Notification) : M unit :=
  l <- gets m_urlLoader ;;
  match l with
  | None => crash (NullDereference "m_urlLoader")
  | Some _ => fun w => Returned (tt, post task w)
  end.

(** A call through [m_request]. *)
Definition on_request (c : TransportCall) : M unit :=
  q <- gets m_request ;;
  match q with
  | None => crash (NullDereference "m_request")
  | Some _ => fun w => Returned (tt, log_call c w)
  end.

(** ** Member functions *)

(** [finish]: the guard reference it takes on itself only keeps the object
    alive during the call and is left out. *)
Definition finish (success : bool) : M unit :=
  st <- gets m_loadState ;;
  ASSERT (state_ltb st Finished) "called finish on an already finished WebRequest (%d)" ;;
  modify (with_loadState Finished) ;;
  (if success then maybeCallOnMainThread didFinishLoading
   else
     q <- gets m_request ;;
     maybeCallOnMainThread (didFail (WebResponse_of_request q))) ;;
  modify (with_networkBuffer None) ;;
  modify (with_request None) ;;
  modify (with_urlLoader None).

(** [AppendBytesToUpload]: valid only before [start]. *)
Definition AppendBytesToUpload (data : list byte) : M unit :=
  st <- gets m_loadState ;;
  ASSERT (state_eqb st Created) "Start called on a WebRequest not in CREATED state: (%s)" ;;
  on_request (call_AppendBytesToUpload data).

(** [cancel]: does nothing once the request has finished, so that no second
    finish message is sent. *)
Definition cancel : M unit :=
  st <- gets m_loadState ;;
  ASSERT (state_leb Started st) "Cancel called on a not started WebRequest: (%s)" ;;
  ASSERT (negb (state_eqb st Cancelled)) "Cancel called on an already cancelled WebRequest: (%s)" ;;
  if state_ltb Cancelled st then ret tt
  else
    q <- gets m_request ;;
    ASSERT (match q with Some _ => true | None => false end)
           "Request set to 0 before it is finished" ;;
    modify (with_loadState Cancelled) ;;
    on_request call_Cancel ;;
    finish true.

(** [new net::IOBuffer(size)] *)
Definition new_IOBuffer (size : Z) : M IOBuffer :=
  fun w => Returned ({| buf_id := buffers_allocated w; buf_size := size |},
                     mkWorld (self w) (mainThread w) (calls w)
                             (S (buffers_allocated w)) (io_reads w) (stream_reads w)).

(** [m_request->Read(buffer, size, bytesRead)]: the transport's next answer. *)
Definition URLRequest_Read (buffer : IOBuffer) (size : Z) : M (bool * Z) :=
  fun w =>
    match m_request (self w) with
    | None => Crashed (NullDereference "m_request")
    | Some q =>
        match io_reads w with
        | [] => Starved
        | r :: rest =>
            Returned ((rr_ret r, rr_bytes r),
                      mkWorld (with_request (Some {| url := url q; status := rr_status r |}) (self w))
                              (mainThread w) (calls w ++ [call_Read buffer size])
                              (buffers_allocated w) rest (stream_reads w))
        end
    end.

(** [m_loadState == Response || m_loadState == GotData] *)
Definition reading_state (st : LoadState) : bool :=
  state_eqb st Response || state_eqb st GotData.

(** [read]: a new buffer of [kInitialReadBufSize] bytes and one [Read]; the
    pair is its return value and [*bytesRead]. *)
Definition read : M (bool * Z) :=
  st <- gets m_loadState ;;
  ASSERT (reading_state st) "read in state other than RESPONSE and GOTDATA" ;;
  nb <- gets m_networkBuffer ;;
  ASSERT (match nb with None => true | Some _ => false end)
         "Read called with a nonzero buffer" ;;
  b <- new_IOBuffer kInitialReadBufSize ;;
  modify (with_networkBuffer (Some b)) ;;
  URLRequest_Read b kInitialReadBufSize.

(** The [while (true)] of [startReading].  Every iteration takes one answer of
    the transport, so the number of answers left bounds the iterations. *)
Fixpoint startReading_loop (fuel : nat) : M unit :=
  match fuel with
  | O => fun _ => Starved
  | S fuel' =>
      r <- read ;;
      let (ok, bytesRead) := r in
      if ok then
        if bytesRead =? 0 then finish true
        else
          modify (with_loadState GotData) ;;
          nb <- gets m_networkBuffer ;;
          maybeCallOnMainThread (didReceiveData nb bytesRead) ;;
          modify (with_networkBuffer None) ;;
          startReading_loop fuel'
      else
        q <- gets m_request ;;
        if match q with Some q' => is_io_pending (status q') | None => false end
        then ret tt
        else finish false
  end.

Definition startReading : M unit :=
  st <- gets m_loadState ;;
  ASSERT (reading_state st) "StartReading in state other than RESPONSE and GOTDATA" ;;
  fun w => startReading_loop (S (List.length (io_reads w))) w.

Definition OnReceivedRedirect (newRequest : option URLRequest) (newUrl : GURL) : M unit :=
  st <- gets m_loadState ;;
  ASSERT (state_ltb st Response) "Redirect after receiving response" ;;
  match newRequest with
  | Some q =>
      if is_success (status q)
      then maybeCallOnMainThread
             (willSendRequest (setUrl (WebResponse_of_request newRequest) (spec newUrl)))
      else ret tt
  | None => ret tt
  end.

Definition OnAuthRequired (request : option URLRequest) (authInfo : string) : M unit :=
  st <- gets m_loadState ;;
  ASSERT (state_eqb st Started) "OnAuthRequired called on a WebRequest not in STARTED state (state=%d)" ;;
  maybeCallOnMainThread (authRequired authInfo).

Definition OnResponseStarted (request : option URLRequest) : M unit :=
  st <- gets m_loadState ;;
  ASSERT (state_eqb st Started) "Got response after receiving response" ;;
  modify (with_loadState Response) ;;
  if match request with Some q => is_success (status q) | None => false end
  then
    maybeCallOnMainThread (didReceiveResponse (WebResponse_of_request request)) ;;
    startReading
  else finish false.

Definition setAuth (username password : string) : M unit :=
  st <- gets m_loadState ;;
  ASSERT (state_eqb st Started) "setAuth called on a WebRequest not in STARTED state (state=%d)" ;;
  on_request (call_SetAuth username password).

Definition cancelAuth : M unit :=
  st <- gets m_loadState ;;
  ASSERT (state_eqb st Started) "cancelAuth called on a WebRequest not in STARTED state (state=%d)" ;;
  on_request call_CancelAuth.

Definition OnReadCompleted (request : option URLRequest) (bytesRead : Z) : M unit :=
  st <- gets m_loadState ;;
  ASSERT (reading_state st) "OnReadCompleted in state other than RESPONSE and GOTDATA" ;;
  match request with
  | None => crash (NullDereference "request")
  | Some q =>
      if is_success (status q) then
        modify (with_loadState GotData) ;;
        nb <- gets m_networkBuffer ;;
        maybeCallOnMainThread (didReceiveData nb bytesRead) ;;
        modify (with_networkBuffer None) ;;
        startReading
      else finish false
  end.

(** [~WebRequest()] *)
Definition destroy : M unit :=
  st <- gets m_loadState ;;
  ASSERT (state_eqb st Finished) "dtor called on a WebRequest in a different state than finished (%d)" ;;
  modify (with_loadState Deleted).

(** ** The content sources that do not use the network *)

(** [std::string::find_last_of(c)]: the index of the last [c], if any. *)
Fixpoint find_last_of (s : string) (c : ascii) : option nat :=
  match s with
  | EmptyString => None
  | String a rest =>
      match find_last_of rest c with
      | Some i => Some (S i)
      | None => if Ascii.eqb a c then Some O else None
      end
  end.

(** The characters from index [i] to the end. *)
Definition string_from (i : nat) (s : string) : string :=
  substring i (String.length s - i) s.

(** [std::string::c_str()] read back as a C string: it ends at the first NUL. *)
Fixpoint c_str (s : string) : string :=
  match s with
  | EmptyString => EmptyString
  | String a rest => if Ascii.eqb a Ascii.zero then EmptyString else String a (c_str rest)
  end.

(** [new std::vector<char>(size)]: [size] zero bytes. *)
Definition new_vector (size : Z) : list byte := repeat x00 (Z.to_nat size).

(** [env->GetByteArrayRegion(array, start, len, buf)]: copies the region into
    [buf]; outside the array it throws and copies nothing. *)
Definition GetByteArrayRegion (array : list byte) (start len : Z) (buf : list byte)
  : list byte :=
  if (0 <=? start) && (0 <=? len) && (start + len <=? Z.of_nat (List.length array))
  then firstn (Z.to_nat len) (skipn (Z.to_nat start) array) ++ skipn (Z.to_nat len) buf
  else buf.

(** [env->CallStaticIntMethod(bridgeClass, method, m_inputStream, jb)]: the
    stream's next answer. *)
Definition readFromStream : M (Z * list byte) :=
  fun w =>
    match stream_reads w with
    | [] => Starved
    | r :: rest =>
        Returned ((sr_size r, sr_array r),
                  mkWorld (self w) (mainThread w) (calls w) (buffers_allocated w)
                          (io_reads w) rest)
    end.

(** The [do ... while (true)] of [handleAndroidURL]. *)
Fixpoint androidReadLoop (fuel : nat) : M unit :=
  match fuel with
  | O => fun _ => Starved
  | S fuel' =>
      r <- readFromStream ;;
      let (size, jb) := r in
      if size <? 0 then ret tt
      else
        let data := GetByteArrayRegion jb 0 size (new_vector size) in
        modify (with_loadState GotData) ;;
        maybeCallOnMainThread (didReceiveAndroidFileData data) ;;
        androidReadLoop fuel'
  end.

(** ** Vocabulary of the properties *)

(** The two notifications that end a load. *)
Definition terminal (n : Notification) : bool :=
  match n with
  | didFail _ | didFinishLoading => true
  | _ => false
  end.

(** What may be posted before the response starts. *)
Definition early (n : Notification) : bool :=
  match n with
  | willSendRequest _ | authRequired _ => true
  | _ => false
  end.

Definition is_didFail (n : Notification) : bool :=
  match n with didFail _ => true | _ => false end.

Definition is_didReceiveResponse (n : Notification) : bool :=
  match n with didReceiveResponse _ => true | _ => false end.

Definition is_data (n : Notification) : bool :=
  match n with
  | didReceiveData _ _ | didReceiveAndroidFileData _ | didReceiveDataUrl _ => true
  | _ => false
  end.

Definition count {A} (p : A -> bool) (l : list A) : nat := List.length (filter p l).

(** The buffers handed to the consumer. *)
Definition forwarded (l : list Notification) : list nat :=
  flat_map (fun n => match n with
                     | didReceiveData (Some b) _ => [buf_id b]
                     | _ => []
                     end) l.

Definition unflushed (fw : list nat) (i : nat) : bool := negb (existsb (Nat.eqb i) fw).

(** The buffers allocated and not yet forwarded. *)
Definition outstanding (w : World) : list nat :=
  filter (unflushed (forwarded (mainThread w))) (seq 0 (buffers_allocated w)).

(** The buffer the controller holds. *)
Definition slot (w : World) : list nat :=
  match m_networkBuffer (self w) with
  | Some b => [buf_id b]
  | None => []
  end.

Definition live (w : World) : Prop :=
  state_ltb (m_loadState (self w)) Finished = true.

(** What holds at every point before [finish]. *)
Definition Good (w : World) : Prop :=
  live w /\
  Forall (fun n => terminal n = false) (mainThread w) /\
  m_urlLoader (self w) <> None /\
  outstanding w = slot w /\
  (forall i, In i (forwarded (mainThread w)) -> (i < buffers_allocated w)%nat).

(** What holds once the load has ended. *)
Definition Done (w : World) : Prop :=
  state_leb Finished (m_loadState (self w)) = true /\
  (exists pre t, mainThread w = pre ++ [t] /\ terminal t = true /\
                 Forall (fun n => terminal n = false) pre) /\
  (List.length (outstanding w) <= 1)%nat.

(** What holds in addition between two calls. *)
Definition Idle (w : World) : Prop :=
  (state_leb (m_loadState (self w)) Started = true ->
     m_networkBuffer (self w) = None /\
     Forall (fun n => early n = true) (mainThread w)) /\
  (m_androidUrl (self w) = false -> live w -> m_request (self w) <> None) /\
  (m_androidUrl (self w) = true ->
     m_loadState (self w) = Created \/
     state_leb Finished (m_loadState (self w)) = true) /\
  m_loadState (self w) <> Cancelled.

Definition Inv (w : World) : Prop := (Good w \/ Done w) /\ Idle w.

(** The assertion of [read] that guards the buffer. *)
Definition nonzero_buffer : Fault := AssertionFailed "Read called with a nonzero buffer".

(** [m] run from [w] establishes [Q] when it returns and, when it crashes,
    does not crash on the buffer assertion. *)
Definition ensures {A} (m : M A) (Q : A -> World -> Prop) (w : World) : Prop :=
  match m w with
  | Returned (a, w') => Q a w'
  | Crashed f => f <> nonzero_buffer
  | Starved => True
  end.

(** The world [finish] leaves. *)
Definition finished (success : bool) (w : World) : World :=
  mkWorld
    (mkWebRequest None None None (m_inputStream (self w)) (m_androidUrl (self w))
                  (m_url (self w)) (m_userAgent (self w)) Finished)
    (mainThread w ++
       [if success then didFinishLoading
        else didFail (WebResponse_of_request (m_request (self w)))])
    (calls w) (buffers_allocated w) (io_reads w) (stream_reads w).

(** The buffer [read] allocates in [w]. *)
Definition fresh_buffer (w : World) : IOBuffer :=
  {| buf_id := buffers_allocated w; buf_size := kInitialReadBufSize |}.

(** The world after a [read] that the transport answered with [r]. *)
Definition after_read (r : ReadResult) (rest : list ReadResult) (w : World) : World :=
  mkWorld
    (mkWebRequest (m_urlLoader (self w))
                  (option_map (fun q => {| url := url q; status := rr_status r |})
                              (m_request (self w)))
                  (Some (fresh_buffer w)) (m_inputStream (self w))
                  (m_androidUrl (self w)) (m_url (self w)) (m_userAgent (self w))
                  (m_loadState (self w)))
    (mainThread w)
    (calls w ++ [call_Read (fresh_buffer w) kInitialReadBufSize])
    (S (buffers_allocated w)) rest (stream_reads w).

(** The world after the buffer held was posted with [n] bytes. *)
Definition forward (n : Z) (w : World) : World :=
  mkWorld
    (mkWebRequest (m_urlLoader (self w)) (m_request (self w)) None
                  (m_inputStream (self w)) (m_androidUrl (self w)) (m_url (self w))
                  (m_userAgent (self w)) GotData)
    (mainThread w ++ [didReceiveData (m_networkBuffer (self w)) n])
    (calls w) (buffers_allocated w) (io_reads w) (stream_reads w).

(** The chunks the stream loop posts: one per answer, up to the first negative
    size. *)
Fixpoint stream_chunks (answers : list StreamRead) : list (list byte) :=
  match answers with
  | [] => []
  | r :: rest =>
      if sr_size r <? 0 then []
      else GetByteArrayRegion (sr_array r) 0 (sr_size r) (new_vector (sr_size r))
           :: stream_chunks rest
  end.

(** The answers left after the first negative size. *)
Fixpoint stream_rest (answers : list StreamRead) : list StreamRead :=
  match answers with
  | [] => []
  | r :: rest => if sr_size r <? 0 then rest else stream_rest rest
  end.

(** Some answer is negative: the stream ends. *)
Definition stream_ends (answers : list StreamRead) : bool :=
  existsb (fun r => sr_size r <? 0) answers.

(** The sizes the stream answers before its first negative one. *)
Fixpoint stream_sizes (answers : list StreamRead) : list Z :=
  match answers with
  | [] => []
  | r :: rest => if sr_size r <? 0 then [] else sr_size r :: stream_sizes rest
  end.

(** The world the stream loop leaves when the stream ends. *)
Definition after_stream (w : World) : World :=
  mkWorld
    (match stream_chunks (stream_reads w) with
     | [] => self w
     | _ :: _ => with_loadState GotData (self w)
     end)
    (mainThread w ++ map didReceiveAndroidFileData (stream_chunks (stream_reads w)))
    (calls w) (buffers_allocated w) (io_reads w) (stream_rest (stream_reads w)).

(** The transport reports a failure at the start of the response. *)
Definition response_failed (request : option URLRequest) : bool :=
  negb (match request with Some q => is_success (status q) | None => false end).

(** ** A small platform to run the model on *)

Definition sample_mkGURL (s : string) : GURL :=
  {| spec := s;
     scheme := match index 0 ":" s with
               | Some i => substring 0 i s
               | None => EmptyString
               end |}.

Definition sample_DataURL_Parse (u : GURL) : option (string * string * string) :=
  match index 0 "," (spec u) with
  | Some i => Some ("text/plain", "US-ASCII", string_from (S i) (spec u))
  | None => None
  end.

Definition sample_GetMimeTypeFromFile (path : string) : option string := None.

Definition sample_asset_open (name : string) : option string := None.

Definition sample_request (u : string) : WebResourceRequest :=
  {| wr_url := u; wr_userAgent := "agent"; wr_requestHeaders := EmptyString;
     wr_referrer := EmptyString; wr_method := "GET" |}.

Definition ok_status : URLRequestStatus := {| is_success := true; is_io_pending := false |}.
Definition pending_status : URLRequestStatus := {| is_success := true; is_io_pending := true |}.
Definition failed_status : URLRequestStatus := {| is_success := false; is_io_pending := false |}.

Definition sample_URLRequest : URLRequest :=
  {| url := sample_mkGURL "http://example.org/"; status := ok_status |}.

(** Five bytes at once, then a pending read, then the end of the body. *)
Definition sample_answers : list ReadResult :=
  [ {| rr_ret := true; rr_bytes := 5; rr_status := ok_status |};
    {| rr_ret := false; rr_bytes := 0; rr_status := pending_status |};
    {| rr_ret := true; rr_bytes := 0; rr_status := ok_status |} ].

(** Two bytes, an empty read, one byte, then the end of the stream. *)
Definition sample_stream : list StreamRead :=
  [ {| sr_size := 2; sr_array := [x68; x69; x00; x00] |};
    {| sr_size := 0; sr_array := [x68; x69; x00; x00] |};
    {| sr_size := 1; sr_array := [x21; x69; x00; x00] |};
    {| sr_size := -1; sr_array := [x21; x69; x00; x00] |} ].

(** The world a computation returned, [otherwise] when it did not return. *)
Definition world_after (r : result (unit * World)) (otherwise : World) : World :=
  match r with
  | Returned (_, w) => w
  | _ => otherwise
  end.

Definition sample_failed_request : option URLRequest :=
  Some {| url := sample_mkGURL "http://example.org/"; status := failed_status |}.

(** ** Vocabulary of the further properties *)

(** The order in which the consumer is notified: redirects and
    authentication challenges, then the response, then data, then the end. *)
Inductive Phase : Type :=
  | AwaitingResponse | ResponseReceived | Receiving | Ended.

Definition next_phase (p : Phase) (n : Notification) : option Phase :=
  match p with
  | AwaitingResponse =>
      if early n then Some AwaitingResponse
      else if is_didReceiveResponse n then Some ResponseReceived
      else if terminal n then Some Ended
      else None
  | ResponseReceived | Receiving =>
      if is_data n then Some Receiving
      else if terminal n then Some Ended
      else None
  | Ended => None
  end.

(** The phase a list of notifications leads to from [p], when the list
    follows the order. *)
Fixpoint protocol (p : Phase) (l : list Notification) : option Phase :=
  match l with
  | [] => Some p
  | n :: rest =>
      match next_phase p n with
      | Some p' => protocol p' rest
      | None => None
      end
  end.

Definition phase_of (st : LoadState) : Phase :=
  match st with
  | Created | Started => AwaitingResponse
  | Response => ResponseReceived
  | GotData => Receiving
  | Cancelled | Finished | Deleted => Ended
  end.

(** The order in which the transport is called: configured, given its
    context, started, then read or given credentials, and cancelled last. *)
Inductive TransportPhase : Type :=
  | Configuring | ContextSet | Running | Aborted.

Definition next_call (p : TransportPhase) (c : TransportCall) : option TransportPhase :=
  match p, c with
  | Configuring, call_SetExtraRequestHeaders _ => Some Configuring
  | Configuring, call_set_referrer _ => Some Configuring
  | Configuring, call_set_method _ => Some Configuring
  | Configuring, call_AppendBytesToUpload _ => Some Configuring
  | Configuring, call_set_context _ => Some ContextSet
  | ContextSet, call_Start => Some Running
  | Running, call_SetAuth _ _ => Some Running
  | Running, call_CancelAuth => Some Running
  | Running, call_Read _ _ => Some Running
  | Running, call_Cancel => Some Aborted
  | _, _ => None
  end.

Fixpoint transport_protocol (p : TransportPhase) (l : list TransportCall)
  : option TransportPhase :=
  match l with
  | [] => Some p
  | c :: rest =>
      match next_call p c with
      | Some p' => transport_protocol p' rest
      | None => None
      end
  end.

(** The buffers given to [Read], in the order of the calls. *)
Definition reads_of (l : list TransportCall) : list IOBuffer :=
  flat_map (fun c => match c with
                     | call_Read b _ => [b]
                     | _ => []
                     end) l.

(** The three references [finish] clears are null, the loader's apart for the
    request of an Android URL without input stream. *)
Definition Released (w : World) : Prop :=
  m_request (self w) = None /\
  m_networkBuffer (self w) = None /\
  (m_urlLoader (self w) = None \/
   (m_androidUrl (self w) = true /\ m_inputStream (self w) = 0)).

(** What the logs and the buffer tell while the request is live, whatever its
    state: the phases reached, every [Read] on a buffer of its own, the
    buffers forwarded in the order of their allocation, the buffer held being
    the last allocated. *)
Definition Facts (p : Phase) (tp : TransportPhase) (w : World) : Prop :=
  protocol AwaitingResponse (mainThread w) = Some p /\
  transport_protocol Configuring (calls w) = Some tp /\
  map buf_id (reads_of (calls w)) = seq 0 (buffers_allocated w) /\
  forwarded (mainThread w) = seq 0 (List.length (forwarded (mainThread w))) /\
  match m_networkBuffer (self w) with
  | Some b => buf_id b = List.length (forwarded (mainThread w)) /\
              buffers_allocated w = S (List.length (forwarded (mainThread w)))
  | None => buffers_allocated w = List.length (forwarded (mainThread w))
  end /\
  (m_androidUrl (self w) = true ->
   m_request (self w) = None /\ m_networkBuffer (self w) = None).

(** The same once the request has finished. *)
Definition Closed (w : World) : Prop :=
  protocol AwaitingResponse (mainThread w) = Some Ended /\
  (exists tp, transport_protocol Configuring (calls w) = Some tp) /\
  map buf_id (reads_of (calls w)) = seq 0 (buffers_allocated w) /\
  forwarded (mainThread w) = seq 0 (List.length (forwarded (mainThread w))) /\
  (List.length (forwarded (mainThread w)) <= buffers_allocated w
   <= S (List.length (forwarded (mainThread w))))%nat /\
  Released w.

(** What holds between two calls, state by state. *)
Definition Settled (w : World) : Prop :=
  match m_loadState (self w) with
  | Created => Facts AwaitingResponse Configuring w
  | Started => Facts AwaitingResponse Running w
  | Response => Facts ResponseReceived Running w
  | GotData => Facts Receiving Running w
  | Cancelled => False
  | Finished | Deleted => Closed w
  end.

(** [m] run from [w] establishes [Q] when it returns. *)
Definition returns {A} (m : M A) (Q : A -> World -> Prop) (w : World) : Prop :=
  match m w with
  | Returned (a, w') => Q a w'
  | _ => True
  end.

(** The answers of the stream before its first negative size. *)
Fixpoint stream_taken (answers : list StreamRead) : list StreamRead :=
  match answers with
  | [] => []
  | r :: rest => if sr_size r <? 0 then [] else r :: stream_taken rest
  end.

(** The size answered is within the Java array. *)
Definition fits (r : StreamRead) : Prop :=
  sr_size r <= Z.of_nat (List.length (sr_array r)).

(** The character at index [i], as [std::string::operator[]] within bounds. *)
Definition char_at (s : string) (i : nat) : option ascii := String.get i s.

(** The notifications of successive reads, the first on buffer [first]. *)
Fixpoint data_chunks (first : nat) (answers : list ReadResult) : list Notification :=
  match answers with
  | [] => []
  | r :: rest =>
      didReceiveData (Some {| buf_id := first; buf_size := kInitialReadBufSize |})
                     (rr_bytes r)
      :: data_chunks (S first) rest
  end.

(** A read answered at once with some bytes. *)
Definition read_some (r : ReadResult) : Prop :=
  rr_ret r = true /\ rr_bytes r <> 0.

(** The URL [handleBrowserURL] starts from. *)
Definition browser_prefix : string := "data:text/html;charset=utf-8,".

(** ** The getters, and the end of a load *)



(** How the answer to a [Read] ends the load in [startReading]: with success
    when it returns at once with no byte, with failure when it fails without
    io-pending; any other answer does not end it. *)
Definition ends_load (r : ReadResult) : option bool :=
  if rr_ret r then
    if rr_bytes r =? 0 then Some true else None
  else if is_io_pending (rr_status r) then None else Some false.

(** The terminal notification of a load that ended with or without success. *)
Definition is_end (success : bool) (n : Notification) : bool :=
  match n with
  | didFinishLoading => success
  | didFail _ => negb success
  | _ => false
  end.

(** From [w] the call has ended the load in [w']: the request is [Finished],
    what was posted since [w] ends with the terminal notification of the
    outcome and has no other, and it is the only one posted at all. *)
Definition ended (success : bool) (w w' : World) : Prop :=
  m_loadState (self w') = Finished /\
  (exists pre t,
      mainThread w' = mainThread w ++ pre ++ [t] /\
      is_end success t = true /\
      Forall (fun n => terminal n = false) pre) /\
  count terminal (mainThread w') = 1%nat.

Section Collaborators.

(** Code the file calls and does not define: the [GURL] constructor,
    [net::DataURL::Parse] (the MIME type, the charset and the data when it
    succeeds), [net::GetMimeTypeFromFile] and the asset manager's [open]. *)
Variable mkGURL : string -> GURL.
Variable DataURL_Parse : GURL -> option (string * string * string).
Variable GetMimeTypeFromFile : string -> option string.
Variable asset_open : string -> option string.

(** The MIME type of an Android URL: what follows the last [?] of the URL,
    else the type of the file extension, else ["text/html"]. *)
Definition androidMimeType (m_url_ : string) : string :=
  match find_last_of m_url_ "?"%char with
  | Some mimeTypeIndex => string_from (S mimeTypeIndex) m_url_
  | None =>
      match GetMimeTypeFromFile m_url_ with
      | Some mimeType => mimeType
      | None => "text/html"
      end
  end.

(** [handleAndroidURL]: the JNI calls that only look up the class and the
    method and allocate or free the Java array are left out. *)
Definition handleAndroidURL : M unit :=
  inputStream <- gets m_inputStream ;;
  u <- gets m_url ;;
  if inputStream =? 0 then
    modify (with_loadState Finished) ;;
    maybeCallOnMainThread (didFail (WebResponse_of_fields u EmptyString 0 EmptyString 0))
  else
    modify (with_loadState Response) ;;
    maybeCallOnMainThread
      (didReceiveResponse (WebResponse_of_fields u (androidMimeType u) 0 EmptyString 200)) ;;
    (fun w => androidReadLoop (S (List.length (stream_reads w))) w) ;;
    finish true.

(** [handleDataURL]: the failed parse is the empty [else] of the source. *)
Definition handleDataURL (u : GURL) : M unit :=
  match DataURL_Parse u with
  | Some (mimeType, charset, data) =>
      modify (with_loadState Response) ;;
      maybeCallOnMainThread
        (didReceiveResponse
           (WebResponse_of_fields (spec u) mimeType (Z.of_nat (String.length data))
                                  charset 200)) ;;
      (if negb (String.eqb data EmptyString) then
         modify (with_loadState GotData) ;;
         maybeCallOnMainThread (didReceiveDataUrl data)
       else ret tt)
  | None => ret tt
  end ;;
  finish true.

(** [handleBrowserURL]: the start page of incognito mode, as a data URL. *)
Definition handleBrowserURL (u : GURL) : M unit :=
  let data := "data:text/html;charset=utf-8," in
  let data :=
    if String.eqb (spec u) "browser:incognito" then
      match asset_open "webkit/incognito_mode_start_page.html" with
      | Some asset => String.append data asset
      | None => data
      end
    else data in
  handleDataURL (mkGURL (c_str data)).

(** [start]: Android URLs, data URLs and browser URLs are served at once,
    anything else goes to the network stack. *)
Definition start (isPrivateBrowsing : bool) : M unit :=
  st <- gets m_loadState ;;
  ASSERT (state_eqb st Created) "Start called on a WebRequest not in CREATED state: (%s)" ;;
  modify (with_loadState Started) ;;
  android <- gets m_androidUrl ;;
  if android then handleAndroidURL
  else
    q <- gets m_request ;;
    match q with
    | None => crash (NullDereference "m_request")
    | Some q' =>
        if SchemeIs (url q') "data" then handleDataURL (url q')
        else if SchemeIs (url q') "browser" then handleBrowserURL (url q')
        else
          on_request (call_set_context isPrivateBrowsing) ;;
          on_request call_Start
    end.

(** [WebRequest(loader, webResourceRequest)]: the request for the network,
    with the answers its transport will give. *)
Definition WebRequest_new (loader : nat) (r : WebResourceRequest)
           (q_status : URLRequestStatus) (answers : list ReadResult) : World :=
  mkWorld
    (mkWebRequest (Some loader)
                  (Some {| url := mkGURL (wr_url r); status := q_status |})
                  None 0 false (wr_url r) (wr_userAgent r) Created)
    []
    [call_SetExtraRequestHeaders (wr_requestHeaders r);
     call_set_referrer (wr_referrer r);
     call_set_method (wr_method r)]
    O answers [].

(** [WebRequest(loader, webResourceRequest, inputStream)]: the request of an
    Android URL; [inputStream] is the global reference the constructor
    keeps, null when it was given none. *)
Definition WebRequest_new_android (loader : nat) (r : WebResourceRequest)
           (inputStream : Z) (answers : list StreamRead) : World :=
  mkWorld
    (mkWebRequest (Some loader) None None inputStream true
                  (wr_url r) (wr_userAgent r) Created)
    [] [] O [] answers.

(** ** Executions: what the owner and the transport may call, in any order *)

Inductive Op : Type :=
  | op_AppendBytesToUpload (data : list byte)
  | op_start (isPrivateBrowsing : bool)
  | op_cancel
  | op_setAuth (username password : string)
  | op_cancelAuth
  | op_OnReceivedRedirect (newRequest : option URLRequest) (newUrl : GURL)
  | op_OnAuthRequired (request : option URLRequest) (authInfo : string)
  | op_OnResponseStarted (request : option URLRequest)
  | op_OnReadCompleted (request : option URLRequest) (bytesRead : Z)
  | op_destroy.

Definition step (o : Op) : M unit :=
  match o with
  | op_AppendBytesToUpload data => AppendBytesToUpload data
  | op_start p => start p
  | op_cancel => cancel
  | op_setAuth u p => setAuth u p
  | op_cancelAuth => cancelAuth
  | op_OnReceivedRedirect q u => OnReceivedRedirect q u
  | op_OnAuthRequired q a => OnAuthRequired q a
  | op_OnResponseStarted q => OnResponseStarted q
  | op_OnReadCompleted q n => OnReadCompleted q n
  | op_destroy => destroy
  end.

Fixpoint run (ops : list Op) : M unit :=
  match ops with
  | [] => ret tt
  | o :: rest => step o ;; run rest
  end.

(** A world is initial when one of the two constructors built it. *)
Inductive initial : World -> Prop :=
  | initial_network loader r q_status answers :
      initial (WebRequest_new loader r q_status answers)
  | initial_android loader r inputStream answers :
      initial (WebRequest_new_android loader r inputStream answers).

(** The worlds an execution can be in between two calls. *)
Definition reachable (w : World) : Prop :=
  exists w0 ops, initial w0 /\ run ops w0 = Returned (tt, w).


(** ** Facts about lists of notifications and buffers *)

Lemma forwarded_app l l' : forwarded (l ++ l') = forwarded l ++ forwarded l'.
Proof. unfold forwarded. apply flat_map_app. Qed.

Lemma count_app {A} (p : A -> bool) l l' :
  count p (l ++ l') = (count p l + count p l')%nat.
Proof. unfold count. rewrite filter_app, length_app. reflexivity. Qed.

Lemma count_none {A} (p : A -> bool) l :
  Forall (fun x => p x = false) l -> count p l = O.
Proof.
  unfold count. induction 1 as [|x l Hx _ IH]; simpl; [reflexivity|].
  rewrite Hx. exact IH.
Qed.

Lemma unflushed_snoc fw x i :
  unflushed (fw ++ [x]) i = unflushed fw i && negb (Nat.eqb i x).
Proof.
  unfold unflushed. rewrite existsb_app. simpl. rewrite orb_false_r.
  apply negb_orb.
Qed.

Lemma filter_unflushed_snoc fw x s :
  filter (unflushed (fw ++ [x])) s =
  filter (fun i => negb (Nat.eqb i x)) (filter (unflushed fw) s).
Proof.
  induction s as [|i s IH]; simpl; [reflexivity|].
  rewrite unflushed_snoc. destruct (unflushed fw i); simpl.
  - destruct (Nat.eqb i x); simpl; rewrite IH; reflexivity.
  - exact IH.
Qed.

Lemma unflushed_fresh fw n :
  (forall i, In i fw -> (i < n)%nat) -> unflushed fw n = true.
Proof.
  intros H. unfold unflushed. apply negb_true_iff.
  destruct (existsb (Nat.eqb n) fw) eqn:E; [|reflexivity].
  apply existsb_exists in E. destruct E as [i [Hi He]].
  apply Nat.eqb_eq in He. subst i. apply H in Hi. lia.
Qed.

Lemma terminal_last pre t :
  Forall (fun n => terminal n = false) pre -> terminal t = true ->
  forall a n b, pre ++ [t] = a ++ n :: b -> terminal n = true -> b = [].
Proof.
  intros Hpre Ht a n b E Hn.
  destruct b as [|x b] using rev_ind; [reflexivity|].
  exfalso. clear IHb.
  rewrite app_comm_cons, app_assoc in E.
  apply app_inj_tail in E. destruct E as [E _]. subst pre.
  rewrite Forall_forall in Hpre.
  specialize (Hpre n). rewrite Hn in Hpre.
  assert (true = false); [|discriminate].
  apply Hpre. apply in_or_app. right. left. reflexivity.
Qed.

(** ** The primitive steps *)

Lemma finish_spec success w l :
  live w -> m_urlLoader (self w) = Some l ->
  finish success w = Returned (tt, finished success w).
Proof.
  unfold live. destruct w as [[ld q nb ins an u ua st] posted cs na ios srs].
  simpl. intros Hl ->.
  unfold finish, bind, gets, ASSERT, modify, maybeCallOnMainThread, ret. simpl.
  rewrite Hl. simpl. destruct success; reflexivity.
Qed.

Lemma read_spec w r rest q :
  reading_state (m_loadState (self w)) = true ->
  m_networkBuffer (self w) = None ->
  m_request (self w) = Some q ->
  io_reads w = r :: rest ->
  read w = Returned ((rr_ret r, rr_bytes r), after_read r rest w).
Proof.
  destruct w as [[ld q' nb ins an u ua st] posted cs na ios srs].
  simpl. intros Hs -> -> ->.
  unfold read, bind, gets, ASSERT, modify, new_IOBuffer, URLRequest_Read, ret. simpl.
  rewrite Hs. reflexivity.
Qed.

Lemma forward_spec {A} n w l (k : M A) :
  m_urlLoader (self w) = Some l ->
  (modify (with_loadState GotData) ;;
   nb <- gets m_networkBuffer ;;
   maybeCallOnMainThread (didReceiveData nb n) ;;
   modify (with_networkBuffer None) ;;
   k) w = k (forward n w).
Proof.
  destruct w as [[ld q' nb ins an u ua st] posted cs na ios srs].
  simpl. intros ->. reflexivity.
Qed.

(** ** The invariant along the steps *)

Lemma ensures_bind {A B} (m : M A) (k : A -> M B) (Q1 : A -> World -> Prop)
      (Q : B -> World -> Prop) w :
  ensures m Q1 w ->
  (forall a w', Q1 a w' -> ensures (k a) Q w') ->
  ensures (bind m k) Q w.
Proof.
  intros H1 H2. unfold ensures in H1 |- *. unfold bind.
  destruct (m w) as [[a w']|f|]; [apply (H2 a w' H1)|exact H1|exact I].
Qed.

Lemma assertion_not_buffer msg :
  msg <> "Read called with a nonzero buffer" -> AssertionFailed msg <> nonzero_buffer.
Proof. unfold nonzero_buffer. congruence. Qed.

Lemma null_not_buffer p : NullDereference p <> nonzero_buffer.
Proof. unfold nonzero_buffer. discriminate. Qed.

Lemma Idle_finished success w : Idle (finished success w).
Proof.
  unfold Idle, live. simpl. repeat split; try discriminate.
  intros _. right. reflexivity.
Qed.

Lemma Good_slot_length w : Good w -> (List.length (outstanding w) <= 1)%nat.
Proof.
  intros (_ & _ & _ & E & _). rewrite E. unfold slot.
  destruct (m_networkBuffer (self w)); simpl; lia.
Qed.

Lemma Done_finished success w : Good w -> Done (finished success w).
Proof.
  intros G. pose proof (Good_slot_length w G) as Hlen.
  destruct G as (_ & Hnt & _ & _ & _).
  unfold Done. simpl. split; [reflexivity|]. split.
  - eexists. eexists. split; [reflexivity|]. split; [|exact Hnt].
    destruct success; reflexivity.
  - unfold outstanding in *. simpl. rewrite forwarded_app.
    destruct success; simpl; rewrite app_nil_r; exact Hlen.
Qed.

Lemma Inv_finished success w : Good w -> Inv (finished success w).
Proof.
  intros G. split; [right; apply Done_finished; exact G | apply Idle_finished].
Qed.

Lemma finish_ensures success w :
  Good w -> ensures (finish success) (fun _ w' => Inv w') w.
Proof.
  intros G. unfold ensures.
  destruct G as (Hl & Hnt & Hld & Ho & Hf).
  destruct (m_urlLoader (self w)) as [l|] eqn:El; [|congruence].
  rewrite (finish_spec success w l Hl El).
  apply Inv_finished. repeat split; auto. congruence.
Qed.

Lemma Good_after_read r rest w :
  Good w -> m_networkBuffer (self w) = None -> Good (after_read r rest w).
Proof.
  intros (Hl & Hnt & Hld & Ho & Hf) Hb.
  unfold Good, live, outstanding, slot, after_read, fresh_buffer in *.
  cbn [self mainThread buffers_allocated m_networkBuffer m_loadState m_urlLoader buf_id].
  rewrite Hb in Ho. repeat split; auto.
  - rewrite seq_S, filter_app, Ho. simpl.
    rewrite (unflushed_fresh _ _ Hf). reflexivity.
  - intros i Hi. apply Hf in Hi. lia.
Qed.

Lemma Good_forward n w : Good w -> Good (forward n w).
Proof.
  intros (Hl & Hnt & Hld & Ho & Hf).
  unfold Good, live, outstanding, slot in *. simpl.
  split; [reflexivity|]. split.
  { apply Forall_app. split; [exact Hnt|]. constructor; [reflexivity|constructor]. }
  split; [exact Hld|].
  rewrite forwarded_app. simpl.
  destruct (m_networkBuffer (self w)) as [b|]; simpl.
  - split.
    + rewrite filter_unflushed_snoc, Ho. simpl.
      rewrite Nat.eqb_refl. reflexivity.
    + intros i Hi. apply in_app_or in Hi. destruct Hi as [Hi|[Hi|[]]]; [auto|].
      subst i.
      assert (Hin : In (buf_id b) (filter (unflushed (forwarded (mainThread w)))
                                         (seq 0 (buffers_allocated w)))).
      { rewrite Ho. left. reflexivity. }
      apply filter_In in Hin. destruct Hin as [Hin _].
      apply in_seq in Hin. lia.
  - rewrite app_nil_r. split; [exact Ho|exact Hf].
Qed.

Lemma read_cases w :
  m_networkBuffer (self w) = None ->
  (exists f, read w = Crashed f /\ f <> nonzero_buffer) \/
  read w = Starved \/
  (exists r rest q,
      io_reads w = r :: rest /\ m_request (self w) = Some q /\
      reading_state (m_loadState (self w)) = true /\
      read w = Returned ((rr_ret r, rr_bytes r), after_read r rest w)).
Proof.
  intros Hb.
  destruct (reading_state (m_loadState (self w))) eqn:Hs.
  - destruct (m_request (self w)) as [q|] eqn:Hq.
    + destruct (io_reads w) as [|r rest] eqn:Hr.
      * right. left.
        destruct w as [[ld q' nb ins an u ua st] posted cs na ios srs].
        simpl in *. subst.
        unfold read, bind, gets, ASSERT, modify, new_IOBuffer, URLRequest_Read, ret.
        simpl. rewrite Hs. reflexivity.
      * right. right. exists r, rest, q. repeat split; auto.
        apply (read_spec w r rest q); assumption.
    + left. exists (NullDereference "m_request"). split; [|apply null_not_buffer].
      destruct w as [[ld q' nb ins an u ua st] posted cs na ios srs].
      simpl in *. subst.
      unfold read, bind, gets, ASSERT, modify, new_IOBuffer, URLRequest_Read, ret.
      simpl. rewrite Hs. reflexivity.
  - left. eexists. split.
    + destruct w as [[ld q' nb ins an u ua st] posted cs na ios srs].
      simpl in *. subst.
      unfold read, bind, gets, ASSERT, modify, crash. simpl. rewrite Hs. reflexivity.
    + apply assertion_not_buffer. discriminate.
Qed.

Lemma Idle_reading w :
  reading_state (m_loadState (self w)) = true ->
  m_androidUrl (self w) = false ->
  m_request (self w) <> None ->
  Idle w.
Proof.
  intros Hs Ha Hq. unfold Idle.
  destruct (m_loadState (self w)); try discriminate Hs; simpl;
    (split; [discriminate|]); (split; [auto|]);
    (split; [congruence|discriminate]).
Qed.

Lemma startReading_loop_ensures fuel :
  forall w,
    Good w -> m_networkBuffer (self w) = None -> m_androidUrl (self w) = false ->
    ensures (startReading_loop fuel) (fun _ w' => Inv w') w.
Proof.
  induction fuel as [|fuel IH]; intros w G Hb Ha; [exact I|].
  unfold ensures. simpl startReading_loop. unfold bind at 1.
  destruct (read_cases w Hb) as [[f [-> Hf]]|[->|(r & rest & q & Hr & Hq & Hs & ->)]];
    [exact Hf|exact I|].
  pose proof (Good_after_read r rest w G Hb) as G1.
  set (w1 := after_read r rest w) in *.
  assert (Hld : exists l, m_urlLoader (self w1) = Some l).
  { destruct G1 as (_ & _ & Hld & _). destruct (m_urlLoader (self w1)) as [l|];
      [eauto|congruence]. }
  destruct Hld as [l Hld].
  destruct (rr_ret r).
  - destruct (rr_bytes r =? 0).
    + apply (finish_ensures true w1 G1).
    + rewrite (forward_spec (rr_bytes r) w1 l _ Hld).
      apply IH; [apply Good_forward; exact G1|reflexivity|exact Ha].
  - assert (Hq1 : m_request (self w1) = Some {| url := url q; status := rr_status r |}).
    { unfold w1. simpl. rewrite Hq. reflexivity. }
    unfold bind, gets. rewrite Hq1. simpl.
    destruct (is_io_pending (rr_status r)).
    + unfold ret. split; [left; exact G1|].
      apply Idle_reading; [exact Hs|exact Ha|rewrite Hq1; discriminate].
    + apply (finish_ensures false w1 G1).
Qed.

Lemma Good_frame w w' extra :
  Good w ->
  live w' ->
  mainThread w' = mainThread w ++ extra ->
  Forall (fun n => terminal n = false) extra ->
  forwarded extra = [] ->
  m_urlLoader (self w') = m_urlLoader (self w) ->
  buffers_allocated w' = buffers_allocated w ->
  m_networkBuffer (self w') = m_networkBuffer (self w) ->
  Good w'.
Proof.
  intros (Hl & Hnt & Hld & Ho & Hf) Hl' Hm He Hfe Hld' Hna Hnb.
  unfold Good, outstanding, slot in *.
  rewrite Hm, Hld', Hna, Hnb, forwarded_app, Hfe, app_nil_r.
  repeat split; auto. apply Forall_app. split; assumption.
Qed.

Lemma Good_loader w : Good w -> exists l, m_urlLoader (self w) = Some l.
Proof.
  intros (_ & _ & Hld & _). destruct (m_urlLoader (self w)) as [l|]; [eauto|congruence].
Qed.

Lemma startReading_ensures w :
  Good w -> m_networkBuffer (self w) = None -> m_androidUrl (self w) = false ->
  ensures startReading (fun _ w' => Inv w') w.
Proof.
  intros G Hb Ha. unfold ensures, startReading, bind, gets, ASSERT.
  destruct (reading_state (m_loadState (self w))).
  - apply (startReading_loop_ensures _ w G Hb Ha).
  - apply assertion_not_buffer. discriminate.
Qed.

Ltac wreck w :=
  let ld := fresh "ld" in let q := fresh "q" in let nb := fresh "nb" in
  let ins := fresh "ins" in let an := fresh "an" in let u := fresh "u" in
  let ua := fresh "ua" in let st := fresh "st" in
  let posted := fresh "posted" in let cs := fresh "cs" in
  let na := fresh "na" in let ios := fresh "ios" in let srs := fresh "srs" in
  destruct w as [[ld q nb ins an u ua st] posted cs na ios srs].

Ltac frame :=
  match goal with
  | G : Good ?w0 |- Good _ =>
      eapply (Good_frame w0);
      [ exact G
      | try reflexivity
      | unfold post, with_self, log_call; cbn [mainThread];
        first [ reflexivity
              | rewrite <- ?app_assoc; reflexivity
              | symmetry; apply app_nil_r ]
      | try (repeat constructor)
      | try reflexivity .. ]
  end.

Ltac not_buffer :=
  first [ apply null_not_buffer
        | apply assertion_not_buffer; discriminate ].

Lemma androidReadLoop_ensures fuel :
  forall w, Good w -> ensures (androidReadLoop fuel) (fun _ w' => Good w') w.
Proof.
  induction fuel as [|fuel IH]; intros w G; [exact I|].
  destruct (Good_loader w G) as [l Hl].
  wreck w. simpl in Hl. subst ld.
  unfold ensures. simpl androidReadLoop. unfold bind at 1, readFromStream.
  cbn [stream_reads].
  destruct srs as [|r rest]; [exact I|].
  destruct (sr_size r <? 0).
  - unfold ret. frame. apply G.
  - cbn -[GetByteArrayRegion new_vector androidReadLoop].
    apply IH.
    frame.
Qed.

Lemma handleDataURL_ensures u w :
  Good w -> ensures (handleDataURL u) (fun _ w' => Inv w') w.
Proof.
  intros G. destruct (Good_loader w G) as [l Hl].
  wreck w. simpl in Hl. subst ld.
  unfold handleDataURL, ensures.
  destruct (DataURL_Parse u) as [[[mimeType charset] data]|].
  - destruct (negb (String.eqb data EmptyString)).
    + cbn -[finish String.length].
      apply finish_ensures.
      frame.
    + cbn -[finish String.length].
      apply finish_ensures.
      frame.
  - cbn -[finish]. apply finish_ensures. exact G.
Qed.

Lemma Idle_of_done w :
  state_leb Finished (m_loadState (self w)) = true -> Idle w.
Proof.
  unfold Idle, live. destruct (m_loadState (self w)); simpl; try discriminate;
    intros _; repeat split; try discriminate; auto.
Qed.

Lemma Done_intro w w' t :
  Good w ->
  state_leb Finished (m_loadState (self w')) = true ->
  mainThread w' = mainThread w ++ [t] ->
  terminal t = true ->
  buffers_allocated w' = buffers_allocated w ->
  Done w'.
Proof.
  intros G Hs Hm Ht Hna. pose proof (Good_slot_length w G) as Hlen.
  destruct G as (_ & Hnt & _ & _ & _).
  unfold Done. split; [exact Hs|]. split.
  - exists (mainThread w), t. auto.
  - unfold outstanding in *. rewrite Hm, Hna, forwarded_app.
    destruct t; try discriminate Ht; simpl; rewrite app_nil_r; exact Hlen.
Qed.

Lemma handleAndroidURL_ensures w :
  Good w -> ensures handleAndroidURL (fun _ w' => Inv w') w.
Proof.
  intros G. destruct (Good_loader w G) as [l Hl].
  wreck w. simpl in Hl. subst ld.
  unfold handleAndroidURL, ensures, bind at 1, bind at 1, gets.
  cbn [self m_inputStream m_url].
  destruct (ins =? 0).
  - cbn. split; [right|apply Idle_of_done; reflexivity].
    eapply Done_intro; [exact G|reflexivity|reflexivity|reflexivity|reflexivity].
  - unfold bind at 1, bind at 1. cbn -[androidReadLoop finish androidMimeType].
    match goal with
    | |- match bind ?m ?k ?w1 with _ => _ end =>
        change (ensures (bind m k) (fun _ w' => Inv w') w1)
    end.
    eapply ensures_bind.
    + apply androidReadLoop_ensures. frame.
    + intros a w' G'. apply finish_ensures. exact G'.
Qed.

Lemma start_ensures p w : Inv w -> ensures (start p) (fun _ w' => Inv w') w.
Proof.
  intros [[G|D] Id].
  - destruct (Good_loader w G) as [l Hl].
    wreck w. simpl in Hl. subst ld.
    destruct st; try (cbn; not_buffer).
    unfold start, ensures, bind at 1, bind at 1, bind at 1, bind at 1, gets, modify.
    cbn -[handleAndroidURL handleDataURL handleBrowserURL].
    destruct an.
    + apply handleAndroidURL_ensures. frame.
    + unfold bind at 1, gets. cbn -[handleAndroidURL handleDataURL handleBrowserURL].
      destruct q as [q'|]; [|cbn; not_buffer].
      destruct (SchemeIs (url q') "data").
      * apply handleDataURL_ensures. frame.
      * destruct (SchemeIs (url q') "browser").
        -- unfold handleBrowserURL. apply handleDataURL_ensures. frame.
        -- cbn. split; [left; frame|].
           unfold Idle in *. simpl in *.
           destruct Id as (Hearly & _ & _ & _).
           repeat split; auto; try discriminate; apply Hearly; reflexivity.
  - destruct D as (Hs & _).
    wreck w. simpl in Hs. destruct st; try discriminate Hs; cbn; not_buffer.
Qed.

Lemma cancel_ensures w : Inv w -> ensures cancel (fun _ w' => Inv w') w.
Proof.
  intros [[G|D] Id].
  - destruct (Good_loader w G) as [l Hl].
    pose proof G as (Hlive & _).
    wreck w. simpl in Hl. subst ld. unfold live in Hlive. simpl in Hlive.
    unfold Idle in Id. simpl in Id. destruct Id as (_ & _ & _ & Hnc).
    destruct st; try discriminate Hlive; try congruence;
      try (cbn; not_buffer);
      (destruct q as [q'|]; [|cbn; not_buffer]);
      (unfold cancel, ensures; cbn -[finish]; apply finish_ensures; frame).
  - pose proof D as (Hs & _).
    wreck w. simpl in Hs.
    destruct st; try discriminate Hs; cbn; split; auto.
Qed.

Lemma Inv_post_early n w :
  Good w -> Idle w -> early n = true -> Inv (post n w).
Proof.
  intros G (Hearly & Hq & Ha & Hnc) Hn. split.
  - left. apply (Good_frame w _ [n] G); try reflexivity; [apply G| |].
    + constructor; [destruct n; try discriminate Hn; reflexivity|constructor].
    + destruct n; try discriminate Hn; reflexivity.
  - unfold Idle, live, post in *. simpl. repeat split; auto.
    + apply Hearly; assumption.
    + apply Forall_app. split; [apply Hearly; assumption|].
      constructor; [exact Hn|constructor].
Qed.

Lemma OnReceivedRedirect_ensures q' nu w :
  Inv w -> ensures (OnReceivedRedirect q' nu) (fun _ w' => Inv w') w.
Proof.
  intros [[G|D] Id].
  - destruct (Good_loader w G) as [l Hl].
    unfold OnReceivedRedirect, ensures, bind, gets, ASSERT.
    destruct (state_ltb (m_loadState (self w)) Response); [|cbn; not_buffer].
    cbn. destruct q' as [q'|]; [|split; auto].
    destruct (is_success (status q')); [|split; auto].
    unfold maybeCallOnMainThread, bind, gets. rewrite Hl.
    apply Inv_post_early; auto.
  - destruct D as (Hs & _).
    wreck w. simpl in Hs. destruct st; try discriminate Hs; cbn; not_buffer.
Qed.

Lemma OnAuthRequired_ensures q' a w :
  Inv w -> ensures (OnAuthRequired q' a) (fun _ w' => Inv w') w.
Proof.
  intros [[G|D] Id].
  - destruct (Good_loader w G) as [l Hl].
    unfold OnAuthRequired, ensures, bind, gets, ASSERT.
    destruct (state_eqb (m_loadState (self w)) Started); [|cbn; not_buffer].
    cbn. unfold maybeCallOnMainThread, bind, gets. rewrite Hl.
    apply Inv_post_early; auto.
  - destruct D as (Hs & _).
    wreck w. simpl in Hs. destruct st; try discriminate Hs; cbn; not_buffer.
Qed.

Lemma on_request_ensures (guard : LoadState) msg c w :
  msg <> "Read called with a nonzero buffer" ->
  Inv w ->
  ensures (st <- gets m_loadState ;; ASSERT (state_eqb st guard) msg ;; on_request c)
          (fun _ w' => Inv w') w.
Proof.
  intros Hmsg [GD Id].
  wreck w. unfold ensures, bind, gets, ASSERT, on_request. cbn.
  destruct (state_eqb st guard); cbn; [|apply assertion_not_buffer; exact Hmsg].
  destruct q as [q'|]; cbn; [|not_buffer].
  split; [|exact Id].
  destruct GD as [G|D]; [left; frame; apply G|right; exact D].
Qed.

Lemma OnResponseStarted_ensures q' w :
  Inv w -> ensures (OnResponseStarted q') (fun _ w' => Inv w') w.
Proof.
  intros [[G|D] Id].
  - destruct (Good_loader w G) as [l Hl].
    wreck w. simpl in Hl. subst ld.
    unfold Idle in Id. simpl in Id. destruct Id as (Hearly & Hq & Ha & Hnc).
    destruct st; try (cbn; not_buffer).
    destruct (Hearly eq_refl) as [Hb He]. subst nb.
    assert (an = false) as ->.
    { destruct an; [|reflexivity]. destruct (Ha eq_refl); discriminate. }
    unfold OnResponseStarted, ensures. cbn -[finish startReading].
    destruct (match q' with Some q0 => is_success (status q0) | None => false end).
    + cbn -[finish startReading].
      apply startReading_ensures; [frame|reflexivity|reflexivity].
    + apply finish_ensures. frame.
  - destruct D as (Hs & _).
    wreck w. simpl in Hs. destruct st; try discriminate Hs; cbn; not_buffer.
Qed.

Lemma OnReadCompleted_ensures q' n w :
  Inv w -> ensures (OnReadCompleted q' n) (fun _ w' => Inv w') w.
Proof.
  intros [[G|D] Id].
  - destruct (Good_loader w G) as [l Hl].
    wreck w. simpl in Hl. subst ld.
    unfold Idle in Id. simpl in Id. destruct Id as (Hearly & Hq & Ha & Hnc).
    destruct st; try (cbn; not_buffer);
      (assert (an = false) as ->;
       [destruct an; [|reflexivity]; destruct (Ha eq_refl); discriminate|]);
      (destruct q' as [q'|]; [|cbn; not_buffer]);
      unfold OnReadCompleted, ensures; cbn -[finish startReading];
      (destruct (is_success (status q'));
       [ cbn -[finish startReading];
         apply startReading_ensures; [|reflexivity|reflexivity];
         match goal with
         | G : Good ?w0 |- Good _ => exact (Good_forward n w0 G)
         end
       | apply finish_ensures; frame ]).
  - destruct D as (Hs & _).
    wreck w. simpl in Hs. destruct st; try discriminate Hs; cbn; not_buffer.
Qed.

Lemma destroy_ensures w : Inv w -> ensures destroy (fun _ w' => Inv w') w.
Proof.
  intros [[G|D] Id].
  - destruct G as (Hlive & _). unfold live in Hlive.
    wreck w. simpl in Hlive. destruct st; try discriminate Hlive; cbn; not_buffer.
  - destruct D as (Hs & Ht & Hlen).
    wreck w. simpl in Hs. destruct st; try discriminate Hs; cbn; try not_buffer.
    split; [right|apply Idle_of_done; reflexivity].
    split; [reflexivity|]. split; [exact Ht|exact Hlen].
Qed.

Lemma step_ensures o w : Inv w -> ensures (step o) (fun _ w' => Inv w') w.
Proof.
  intros H. destruct o; simpl.
  - apply on_request_ensures; [discriminate|exact H].
  - apply start_ensures; exact H.
  - apply cancel_ensures; exact H.
  - apply on_request_ensures; [discriminate|exact H].
  - apply on_request_ensures; [discriminate|exact H].
  - apply OnReceivedRedirect_ensures; exact H.
  - apply OnAuthRequired_ensures; exact H.
  - apply OnResponseStarted_ensures; exact H.
  - apply OnReadCompleted_ensures; exact H.
  - apply destroy_ensures; exact H.
Qed.

Lemma run_ensures ops : forall w, Inv w -> ensures (run ops) (fun _ w' => Inv w') w.
Proof.
  induction ops as [|o ops IH]; intros w H; simpl.
  - exact H.
  - eapply ensures_bind; [apply step_ensures; exact H|].
    intros a w' H'. apply IH. exact H'.
Qed.

Lemma Inv_initial w : initial w -> Inv w.
Proof.
  intros [loader r qs answers|loader r ins answers];
    (split; [left|]);
    unfold Good, Idle, live, outstanding, slot; simpl;
    repeat split; auto; try discriminate; try constructor; intros; contradiction.
Qed.

Lemma reachable_Inv w : reachable w -> Inv w.
Proof.
  intros (w0 & ops & H0 & Hrun).
  pose proof (run_ensures ops w0 (Inv_initial w0 H0)) as H.
  unfold ensures in H. rewrite Hrun in H. exact H.
Qed.

(** ** Termination notifications *)

Lemma Inv_terminals w :
  Inv w ->
  count terminal (mainThread w) =
    (if state_leb Finished (m_loadState (self w)) then 1 else 0)%nat /\
  (forall a n b, mainThread w = a ++ n :: b -> terminal n = true -> b = []).
Proof.
  intros [[G|D] _].
  - destruct G as (Hlive & Hnt & _). unfold live in Hlive. split.
    + rewrite (count_none _ _ Hnt).
      destruct (m_loadState (self w)); try discriminate Hlive; reflexivity.
    + intros a n b E Hn. exfalso. rewrite E in Hnt.
      rewrite Forall_forall in Hnt. specialize (Hnt n).
      rewrite Hn in Hnt. assert (true = false); [|discriminate].
      apply Hnt. apply in_or_app. right. left. reflexivity.
  - destruct D as (Hs & (pre & t & E & Ht & Hpre) & _). split.
    + rewrite Hs, E, count_app, (count_none _ _ Hpre).
      unfold count. simpl. rewrite Ht. reflexivity.
    + intros a n b E' Hn. rewrite E in E'.
      apply (terminal_last pre t Hpre Ht a n b E' Hn).
Qed.

(** ** The network buffer *)



(** ** Cancellation *)

Lemma run_snoc ops o : forall w, run (ops ++ [o]) w = (run ops ;; step o) w.
Proof.
  induction ops as [|o' ops IH]; intros w; simpl.
  - unfold bind, ret. destruct (step o w) as [[[] w']|f|]; reflexivity.
  - unfold bind in *. destruct (step o' w) as [[[] w']|f|]; [|reflexivity..].
    apply IH.
Qed.

Lemma reachable_step o w w' :
  reachable w -> step o w = Returned (tt, w') -> reachable w'.
Proof.
  intros (w0 & ops & H0 & Hrun) Hs.
  exists w0, (ops ++ [o]). split; [exact H0|].
  rewrite run_snoc. unfold bind. rewrite Hrun. exact Hs.
Qed.

Lemma cancel_after_finish w :
  state_ltb Cancelled (m_loadState (self w)) = true -> cancel w = Returned (tt, w).
Proof.
  wreck w. simpl. destruct st; try discriminate; reflexivity.
Qed.

Lemma cancel_returns_finished w w' :
  cancel w = Returned (tt, w') ->
  state_ltb Cancelled (m_loadState (self w')) = true.
Proof.
  wreck w. destruct st; cbn; try discriminate;
    try (intros E; inversion E; reflexivity);
    destruct q; cbn; try discriminate;
    destruct ld; cbn; try discriminate;
    intros E; inversion E; reflexivity.
Qed.

Lemma cancel_live w l q :
  In (m_loadState (self w)) [Started; Response; GotData] ->
  m_urlLoader (self w) = Some l ->
  m_request (self w) = Some q ->
  cancel w = finish true (log_call call_Cancel (with_self (with_loadState Cancelled) w)) /\
  cancel w = Returned (tt, finished true (log_call call_Cancel w)).
Proof.
  wreck w. simpl. intros Hs -> ->.
  destruct Hs as [<-|[<-|[<-|[]]]]; split; reflexivity.
Qed.

(** C3: in a world an execution can reach, [cancel] after the request has
    finished returns without changing anything; in [Started], [Response] or
    [GotData] it is [finish(true)] run in state [Cancelled] after
    [m_request->Cancel()], and leaves the finished world with one more
    [didFinishLoading]; cancelling again after [cancel] returned changes
    nothing, and exactly one terminal notification has been posted. *)
Theorem cancel_idempotent w :
  reachable w ->
  (state_ltb Cancelled (m_loadState (self w)) = true ->
   cancel w = Returned (tt, w)) /\
  (In (m_loadState (self w)) [Started; Response; GotData] ->
   cancel w = finish true (log_call call_Cancel (with_self (with_loadState Cancelled) w)) /\
   cancel w = Returned (tt, finished true (log_call call_Cancel w)) /\
   mainThread (finished true (log_call call_Cancel w)) = mainThread w ++ [didFinishLoading] /\
   calls (finished true (log_call call_Cancel w)) = calls w ++ [call_Cancel]) /\
  (forall w', cancel w = Returned (tt, w') ->
              cancel w' = Returned (tt, w') /\
              count terminal (mainThread w') = 1%nat).
Proof.
  intros Hr. split; [apply cancel_after_finish|]. split.
  - intros Hs. destruct (reachable_Inv w Hr) as [[G|D] Id].
    + destruct (Good_loader w G) as [l Hl].
      destruct Id as (_ & Hq & Ha & _).
      assert (Han : m_androidUrl (self w) = false).
      { destruct (m_androidUrl (self w)); [|reflexivity].
        destruct (Ha eq_refl) as [E|E]; rewrite ?E in Hs;
          [destruct Hs as [|[|[|[]]]]; discriminate|].
        destruct Hs as [E'|[E'|[E'|[]]]]; rewrite <- E' in E; discriminate. }
      destruct (m_request (self w)) as [q|] eqn:Eq;
        [|exfalso; apply (Hq Han); [apply G|reflexivity]].
      destruct (cancel_live w l q Hs Hl Eq) as [E1 E2].
      repeat split; auto.
    + destruct D as (Hd & _).
      destruct Hs as [E'|[E'|[E'|[]]]]; rewrite <- E' in Hd; discriminate.
  - intros w' Hc.
    pose proof (cancel_returns_finished w w' Hc) as Hs'.
    split; [apply cancel_after_finish; exact Hs'|].
    assert (Hr' : reachable w') by (apply (reachable_step op_cancel w w' Hr Hc)).
    destruct (Inv_terminals w' (reachable_Inv w' Hr')) as [Hcount _].
    rewrite Hcount.
    destruct (m_loadState (self w')); try discriminate Hs'; reflexivity.
Qed.

(** ** The read loop *)

Lemma startReading_loop_eq w :
  reading_state (m_loadState (self w)) = true ->
  startReading w = startReading_loop (S (List.length (io_reads w))) w.
Proof.
  intros Hs. unfold startReading, bind, gets, ASSERT. rewrite Hs. reflexivity.
Qed.

Lemma startReading_step w q r rest :
  reading_state (m_loadState (self w)) = true ->
  m_networkBuffer (self w) = None ->
  m_request (self w) = Some q ->
  io_reads w = r :: rest ->
  startReading w =
  (if rr_ret r then
     if rr_bytes r =? 0 then finish true
     else
       modify (with_loadState GotData) ;;
       nb <- gets m_networkBuffer ;;
       maybeCallOnMainThread (didReceiveData nb (rr_bytes r)) ;;
       modify (with_networkBuffer None) ;;
       startReading_loop (S (List.length rest))
   else
     q' <- gets m_request ;;
     if match q' with Some q0 => is_io_pending (status q0) | None => false end
     then ret tt
     else finish false) (after_read r rest w).
Proof.
  intros Hs Hb Hq Hio.
  rewrite (startReading_loop_eq w Hs), Hio.
  simpl startReading_loop. unfold bind at 1.
  rewrite (read_spec w r rest q Hs Hb Hq Hio). reflexivity.
Qed.

(** C4: one turn of the read loop.  [read] allocates a fresh buffer of
    32768 bytes and issues one [Read].  Answered with [n > 0] bytes, the
    loop moves to [GotData], posts [didReceiveData] with the buffer, clears
    [m_networkBuffer] and goes on with the next read; answered with no
    byte it is [finish(true)]; when the transport reports io-pending it
    stops and keeps the buffer; on any other failure it is
    [finish(false)]. *)
Theorem startReading_turn w q l r rest :
  reading_state (m_loadState (self w)) = true ->
  m_networkBuffer (self w) = None ->
  m_request (self w) = Some q ->
  m_urlLoader (self w) = Some l ->
  io_reads w = r :: rest ->
  let w1 := after_read r rest w in
  (buf_id (fresh_buffer w) = buffers_allocated w /\
   buf_size (fresh_buffer w) = 32768 /\
   m_networkBuffer (self w1) = Some (fresh_buffer w) /\
   calls w1 = calls w ++ [call_Read (fresh_buffer w) 32768]) /\
  (rr_ret r = true -> rr_bytes r > 0 ->
   startReading w = startReading (forward (rr_bytes r) w1) /\
   m_loadState (self (forward (rr_bytes r) w1)) = GotData /\
   mainThread (forward (rr_bytes r) w1) =
     mainThread w ++ [didReceiveData (Some (fresh_buffer w)) (rr_bytes r)] /\
   m_networkBuffer (self (forward (rr_bytes r) w1)) = None) /\
  (rr_ret r = true -> rr_bytes r = 0 ->
   startReading w = finish true w1 /\
   finish true w1 = Returned (tt, finished true w1) /\
   mainThread (finished true w1) = mainThread w ++ [didFinishLoading]) /\
  (rr_ret r = false -> is_io_pending (rr_status r) = true ->
   startReading w = Returned (tt, w1)) /\
  (rr_ret r = false -> is_io_pending (rr_status r) = false ->
   startReading w = finish false w1 /\
   finish false w1 = Returned (tt, finished false w1) /\
   mainThread (finished false w1) =
     mainThread w ++ [didFail (WebResponse_of_request (m_request (self w1)))]).
Proof.
  intros Hs Hb Hq Hl Hio w1.
  pose proof (startReading_step w q r rest Hs Hb Hq Hio) as Hstep.
  fold w1 in Hstep.
  assert (Hl1 : m_urlLoader (self w1) = Some l) by exact Hl.
  assert (Hlive1 : live w1).
  { unfold live, w1. simpl.
    destruct (m_loadState (self w)); try discriminate Hs; reflexivity. }
  split; [repeat split|]. split; [|split; [|split]].
  - intros Hret Hn. rewrite Hstep, Hret.
    assert (E : (rr_bytes r =? 0) = false) by (apply Z.eqb_neq; lia).
    rewrite E. rewrite (forward_spec (rr_bytes r) w1 l _ Hl1).
    repeat split.
  - intros Hret Hn. rewrite Hstep, Hret, Hn. simpl.
    rewrite (finish_spec true w1 l Hlive1 Hl1). repeat split.
  - intros Hret Hp. rewrite Hstep, Hret.
    unfold bind, gets. unfold w1 at 1. simpl. rewrite Hq. simpl. rewrite Hp.
    reflexivity.
  - intros Hret Hp. rewrite Hstep, Hret.
    unfold bind, gets. unfold w1 at 1. simpl. rewrite Hq. simpl. rewrite Hp.
    fold w1. rewrite (finish_spec false w1 l Hlive1 Hl1). repeat split.
Qed.

(** ** Once finished, nothing more is posted *)

Lemma step_frozen o w w' :
  state_leb Finished (m_loadState (self w)) = true ->
  step o w = Returned (tt, w') ->
  mainThread w' = mainThread w /\
  state_leb Finished (m_loadState (self w')) = true.
Proof.
  wreck w. simpl. intros Hs.
  destruct st; try discriminate Hs; destruct o; cbn; try discriminate;
    intros E; inversion E; subst; auto;
    match goal with
    | q' : option URLRequest |- _ => destruct q'; discriminate
    end.
Qed.

Lemma run_frozen ops :
  forall w w',
    state_leb Finished (m_loadState (self w)) = true ->
    run ops w = Returned (tt, w') ->
    mainThread w' = mainThread w.
Proof.
  induction ops as [|o ops IH]; intros w w' Hs; simpl.
  - unfold ret. intros E. inversion E. reflexivity.
  - unfold bind. destruct (step o w) as [[[] w1]|f|] eqn:Es; try discriminate.
    intros Hrun. destruct (step_frozen o w w1 Hs Es) as [Hm Hs1].
    rewrite <- Hm. apply (IH w1 w' Hs1 Hrun).
Qed.

(** ** The start of the response *)

Lemma OnResponseStarted_failed q' w l :
  m_loadState (self w) = Started ->
  m_urlLoader (self w) = Some l ->
  response_failed q' = true ->
  OnResponseStarted q' w = finish false (with_self (with_loadState Response) w) /\
  OnResponseStarted q' w =
    Returned (tt, finished false (with_self (with_loadState Response) w)).
Proof.
  unfold response_failed. wreck w. simpl. intros -> -> Hf.
  apply negb_true_iff in Hf.
  unfold OnResponseStarted. cbn -[finish]. rewrite Hf. split; reflexivity.
Qed.

(** C5: [OnResponseStarted] crashes outside [Started]; in [Started] it moves
    to [Response] and, when the transport succeeded, posts
    [didReceiveResponse] and enters the read loop; when the transport
    failed it is [finish(false)], no read is issued, and in the whole
    execution exactly one [didFail] and no [didReceiveResponse] and no data
    notification is posted. *)
Theorem response_started q' w l :
  m_loadState (self w) = Started ->
  m_urlLoader (self w) = Some l ->
  (forall q2 w2, state_eqb (m_loadState (self w2)) Started = false ->
     OnResponseStarted q2 w2 =
       Crashed (AssertionFailed "Got response after receiving response")) /\
  (response_failed q' = false ->
   OnResponseStarted q' w =
     startReading (post (didReceiveResponse (WebResponse_of_request q'))
                        (with_self (with_loadState Response) w))) /\
  (response_failed q' = true ->
   let w1 := finished false (with_self (with_loadState Response) w) in
   OnResponseStarted q' w = finish false (with_self (with_loadState Response) w) /\
   OnResponseStarted q' w = Returned (tt, w1) /\
   mainThread w1 =
     mainThread w ++ [didFail (WebResponse_of_request (m_request (self w)))] /\
   calls w1 = calls w /\ io_reads w1 = io_reads w /\
   buffers_allocated w1 = buffers_allocated w) /\
  (response_failed q' = true -> reachable w ->
   forall ops w',
     run (op_OnResponseStarted q' :: ops) w = Returned (tt, w') ->
     count is_didFail (mainThread w') = 1%nat /\
     count is_didReceiveResponse (mainThread w') = O /\
     count is_data (mainThread w') = O).
Proof.
  intros Hs Hl. split; [|split; [|split]].
  - intros q2 w2 Hs2. wreck w2. simpl in Hs2.
    unfold OnResponseStarted, bind, gets, ASSERT. simpl. rewrite Hs2. reflexivity.
  - unfold response_failed. intros Hf. apply negb_false_iff in Hf.
    wreck w. simpl in Hs, Hl. subst.
    unfold OnResponseStarted. cbn -[startReading]. rewrite Hf. reflexivity.
  - intros Hf w1. destruct (OnResponseStarted_failed q' w l Hs Hl Hf) as [E1 E2].
    repeat split; assumption.
  - intros Hf Hr ops w'. simpl. unfold bind.
    destruct (OnResponseStarted_failed q' w l Hs Hl Hf) as [_ E2].
    rewrite E2. intros Hrun.
    apply run_frozen in Hrun; [|reflexivity].
    rewrite Hrun. simpl.
    destruct (reachable_Inv w Hr) as [_ (Hearly & _)].
    rewrite Hs in Hearly. destruct (Hearly eq_refl) as [_ He].
    rewrite !count_app.
    assert (H1 : count is_didFail (mainThread w) = O).
    { apply count_none. eapply Forall_impl; [|exact He].
      intros n Hn. destruct n; try discriminate Hn; reflexivity. }
    assert (H2 : count is_didReceiveResponse (mainThread w) = O).
    { apply count_none. eapply Forall_impl; [|exact He].
      intros n Hn. destruct n; try discriminate Hn; reflexivity. }
    assert (H3 : count is_data (mainThread w) = O).
    { apply count_none. eapply Forall_impl; [|exact He].
      intros n Hn. destruct n; try discriminate Hn; reflexivity. }
    rewrite H1, H2, H3. repeat split.
Qed.

(** ** A read completed later *)

(** C9: [OnReadCompleted] with a successful status and no byte read does
    not finish the load: it moves to [GotData], posts a [didReceiveData] of
    length 0 with the buffer held, clears [m_networkBuffer] and runs the
    read loop again, so that when the next read is pending the request is
    still live with one more [Read] issued; the loop itself, answered with
    no byte, finishes the load. *)
Theorem read_completed_empty w l q' :
  reading_state (m_loadState (self w)) = true ->
  m_urlLoader (self w) = Some l ->
  is_success (status q') = true ->
  OnReadCompleted (Some q') 0 w = startReading (forward 0 w) /\
  m_loadState (self (forward 0 w)) = GotData /\
  mainThread (forward 0 w) =
    mainThread w ++ [didReceiveData (m_networkBuffer (self w)) 0] /\
  m_networkBuffer (self (forward 0 w)) = None /\
  (forall q r rest,
      m_request (self w) = Some q -> io_reads w = r :: rest ->
      rr_ret r = false -> is_io_pending (rr_status r) = true ->
      let w' := after_read r rest (forward 0 w) in
      OnReadCompleted (Some q') 0 w = Returned (tt, w') /\
      m_loadState (self w') = GotData /\
      count terminal (mainThread w') = count terminal (mainThread w) /\
      calls w' = calls w ++ [call_Read (fresh_buffer w) kInitialReadBufSize]) /\
  (forall q r rest,
      m_networkBuffer (self w) = None ->
      m_request (self w) = Some q -> io_reads w = r :: rest ->
      rr_ret r = true -> rr_bytes r = 0 ->
      startReading w = Returned (tt, finished true (after_read r rest w))).
Proof.
  intros Hs Hl Hok.
  assert (E : OnReadCompleted (Some q') 0 w = startReading (forward 0 w)).
  { unfold OnReadCompleted, bind at 1, gets, bind at 1, ASSERT.
    rewrite Hs. cbn [ret]. rewrite Hok.
    apply (forward_spec 0 w l startReading Hl). }
  split; [exact E|]. split; [reflexivity|]. split; [reflexivity|].
  split; [reflexivity|]. split.
  - intros q r rest Hq Hio Hret Hp w'. split; [|split; [|split]].
    + rewrite E.
      rewrite (startReading_step (forward 0 w) q r rest);
        try reflexivity; try assumption.
      rewrite Hret. unfold bind, gets. simpl. rewrite Hq. simpl. rewrite Hp.
      reflexivity.
    + reflexivity.
    + unfold w'. simpl. rewrite count_app. unfold count at 2. simpl. lia.
    + reflexivity.
  - intros q r rest Hb Hq Hio Hret Hn.
    rewrite (startReading_step w q r rest Hs Hb Hq Hio), Hret, Hn. simpl.
    apply (finish_spec true (after_read r rest w) l); [|exact Hl].
    unfold live. simpl. destruct (m_loadState (self w)); try discriminate Hs; reflexivity.
Qed.

(** ** Data URLs *)

(** C6: for a data URL that parses, [handleDataURL] is [finish(true)] run
    after one [didReceiveResponse] with the parsed MIME type and charset,
    the length of the decoded data and status 200, followed by one
    [didReceiveDataUrl] exactly when the data is not empty; the state before
    [finish] is [GotData] when data was posted and [Response] otherwise.
    When the URL does not parse it is [finish(true)] alone. *)
Theorem data_url u w l :
  live w ->
  m_urlLoader (self w) = Some l ->
  (forall mimeType charset data,
      DataURL_Parse u = Some (mimeType, charset, data) ->
      let response :=
        didReceiveResponse
          (WebResponse_of_fields (spec u) mimeType (Z.of_nat (String.length data))
                                 charset 200) in
      let w1 := post response (with_self (with_loadState Response) w) in
      let w2 := if String.eqb data EmptyString then w1
                else post (didReceiveDataUrl data)
                          (with_self (with_loadState GotData) w1) in
      handleDataURL u w = finish true w2 /\
      handleDataURL u w = Returned (tt, finished true w2) /\
      m_loadState (self w2) = (if String.eqb data EmptyString then Response else GotData) /\
      mainThread (finished true w2) =
        mainThread w ++
          response :: (if String.eqb data EmptyString then [] else [didReceiveDataUrl data])
          ++ [didFinishLoading]) /\
  (DataURL_Parse u = None ->
   handleDataURL u w = finish true w /\
   handleDataURL u w = Returned (tt, finished true w) /\
   mainThread (finished true w) = mainThread w ++ [didFinishLoading]).
Proof.
  intros Hlive Hl. split.
  - intros mimeType charset data Hp response w1 w2.
    assert (E : handleDataURL u w = finish true w2).
    { unfold handleDataURL. rewrite Hp. unfold w2, w1, response.
      wreck w. simpl in Hl. subst ld.
      destruct (String.eqb data EmptyString); reflexivity. }
    split; [exact E|]. split; [|split].
    + rewrite E. apply (finish_spec true w2 l).
      * unfold w2, w1. destruct (String.eqb data EmptyString); reflexivity.
      * unfold w2, w1. destruct (String.eqb data EmptyString); exact Hl.
    + unfold w2, w1. destruct (String.eqb data EmptyString); reflexivity.
    + unfold w2, w1. destruct (String.eqb data EmptyString); simpl;
        rewrite <- ?app_assoc; reflexivity.
  - intros Hp.
    assert (E : handleDataURL u w = finish true w).
    { unfold handleDataURL. rewrite Hp. reflexivity. }
    split; [exact E|]. split; [|reflexivity].
    rewrite E. apply (finish_spec true w l Hlive Hl).
Qed.

(** ** Android URLs *)

Lemma start_null_stream p w l :
  m_loadState (self w) = Created ->
  m_androidUrl (self w) = true ->
  m_inputStream (self w) = 0 ->
  m_urlLoader (self w) = Some l ->
  start p w =
    Returned (tt, post (didFail (WebResponse_of_fields (m_url (self w)) EmptyString 0 EmptyString 0))
                       (with_self (with_loadState Finished) w)).
Proof.
  wreck w. simpl. intros -> -> -> ->. reflexivity.
Qed.

(** C7: started with a null input stream, the request of an Android URL
    posts one [didFail] whose response has the request's URL, an empty MIME
    type and charset, length 0 and status 0, and ends in [Finished]; nothing
    else is posted, neither by [start] nor by any later call. *)
Theorem null_stream_fails p w l :
  m_loadState (self w) = Created ->
  m_androidUrl (self w) = true ->
  m_inputStream (self w) = 0 ->
  m_urlLoader (self w) = Some l ->
  let failure := didFail (WebResponse_of_fields (m_url (self w)) EmptyString 0 EmptyString 0) in
  exists w',
    start p w = Returned (tt, w') /\
    mainThread w' = mainThread w ++ [failure] /\
    m_loadState (self w') = Finished /\
    (forall ops w'', run ops w' = Returned (tt, w'') ->
                     mainThread w'' = mainThread w ++ [failure]).
Proof.
  intros Hs Ha Hi Hl failure.
  eexists. split; [apply (start_null_stream p w l Hs Ha Hi Hl)|].
  split; [reflexivity|]. split; [reflexivity|].
  intros ops w'' Hrun. apply run_frozen in Hrun; [exact Hrun|reflexivity].
Qed.

(** C8, at the request of an Android URL built with a null input stream:
    [start] leaves it in [Finished] with [m_urlLoader] still set, the
    reference [finish] would have cleared. *)
Theorem null_stream_keeps_loader p loader r answers :
  exists w',
    start p (WebRequest_new_android loader r 0 answers) = Returned (tt, w') /\
    m_loadState (self w') = Finished /\
    m_urlLoader (self w') = Some loader /\
    m_request (self w') = None /\
    m_networkBuffer (self w') = None.
Proof.
  eexists. split; [reflexivity|]. repeat split.
Qed.

Lemma finish_releases success w w' :
  finish success w = Returned (tt, w') ->
  m_loadState (self w') = Finished /\
  m_request (self w') = None /\
  m_networkBuffer (self w') = None /\
  m_urlLoader (self w') = None.
Proof.
  wreck w. unfold finish, bind, gets, ASSERT, modify, maybeCallOnMainThread.
  cbn. destruct (state_ltb st Finished); cbn; [|discriminate].
  destruct success; cbn; destruct ld; cbn; try discriminate;
    intros E; inversion E; repeat split.
Qed.

Lemma stream_chunk_length array size :
  0 <= size ->
  Z.of_nat (List.length (GetByteArrayRegion array 0 size (new_vector size))) = size.
Proof.
  intros Hsize. unfold GetByteArrayRegion, new_vector.
  destruct ((0 <=? 0) && (0 <=? size) && (0 + size <=? Z.of_nat (List.length array)))
    eqn:E.
  - apply andb_true_iff in E. destruct E as [_ E]. apply Z.leb_le in E.
    rewrite length_app, length_firstn, !length_skipn, repeat_length. lia.
  - rewrite repeat_length. lia.
Qed.

Lemma stream_chunks_sizes answers :
  map (fun d => Z.of_nat (List.length d)) (stream_chunks answers) = stream_sizes answers /\
  Forall (fun n => 0 <= n) (stream_sizes answers).
Proof.
  induction answers as [|r rest [IH1 IH2]]; simpl; [split; constructor|].
  destruct (sr_size r <? 0) eqn:E; [split; constructor|].
  apply Z.ltb_ge in E. simpl. rewrite IH1, (stream_chunk_length _ _ E).
  split; [reflexivity|constructor; assumption].
Qed.

Lemma androidReadLoop_spec answers :
  forall fuel w l,
    stream_reads w = answers ->
    stream_ends answers = true ->
    (List.length answers < fuel)%nat ->
    m_urlLoader (self w) = Some l ->
    androidReadLoop fuel w = Returned (tt, after_stream w).
Proof.
  induction answers as [|r rest IH]; intros fuel w l Ha He Hf Hl;
    [discriminate He|].
  destruct fuel as [|fuel]; [simpl in Hf; lia|].
  wreck w. simpl in Ha, Hl. subst srs ld.
  simpl androidReadLoop. unfold bind at 1, readFromStream. cbn [stream_reads].
  unfold after_stream. cbn [stream_reads stream_chunks stream_rest self mainThread
                            calls buffers_allocated io_reads].
  simpl in He.
  destruct (sr_size r <? 0) eqn:E.
  - unfold ret. simpl. rewrite app_nil_r. reflexivity.
  - simpl in He. cbn -[GetByteArrayRegion new_vector androidReadLoop stream_chunks].
    erewrite IH; [|reflexivity|exact He|simpl in Hf; lia|reflexivity].
    unfold after_stream, post, with_self, with_loadState.
    cbn -[GetByteArrayRegion new_vector stream_chunks stream_rest].
    rewrite <- app_assoc.
    destruct (stream_chunks rest); reflexivity.
Qed.

(** C10: with an input stream that ends, the stream loop posts, after the
    response, one [didReceiveAndroidFileData] for every read that answered
    a size [>= 0], carrying exactly that many bytes (none for size 0, and
    the loop goes on); the first negative size ends the loop and the load
    with [finish(true)]: [didFinishLoading] is posted and no [didFail]. *)
Theorem stream_loop w l :
  m_inputStream (self w) <> 0 ->
  live w ->
  m_urlLoader (self w) = Some l ->
  stream_ends (stream_reads w) = true ->
  let response :=
    didReceiveResponse
      (WebResponse_of_fields (m_url (self w)) (androidMimeType (m_url (self w)))
                             0 EmptyString 200) in
  let chunks := stream_chunks (stream_reads w) in
  exists w',
    handleAndroidURL w = Returned (tt, w') /\
    mainThread w' =
      mainThread w ++ response :: map didReceiveAndroidFileData chunks
                   ++ [didFinishLoading] /\
    m_loadState (self w') = Finished /\
    map (fun d => Z.of_nat (List.length d)) chunks = stream_sizes (stream_reads w) /\
    Forall (fun n => 0 <= n) (stream_sizes (stream_reads w)) /\
    count is_didFail (mainThread w') = count is_didFail (mainThread w).
Proof.
  intros Hi Hlive Hl He response chunks.
  set (w1 := post response (with_self (with_loadState Response) w)).
  exists (finished true (after_stream w1)).
  assert (Hloop : androidReadLoop (S (List.length (stream_reads w1))) w1 =
                  Returned (tt, after_stream w1)).
  { apply (androidReadLoop_spec (stream_reads w1) _ w1 l);
      [reflexivity|exact He|lia|exact Hl]. }
  split; [|split; [|split; [|split; [|split]]]].
  - unfold handleAndroidURL, bind at 1, bind at 1, gets.
    apply Z.eqb_neq in Hi. rewrite Hi.
    unfold bind at 1, modify. unfold bind at 1, maybeCallOnMainThread at 1, bind at 1, gets.
    cbn [self with_self m_urlLoader with_loadState]. rewrite Hl.
    fold response. fold w1. unfold bind at 1. rewrite Hloop.
    apply (finish_spec true (after_stream w1) l).
    + unfold live, after_stream. simpl.
      destruct (stream_chunks (stream_reads w)); reflexivity.
    + unfold after_stream. simpl.
      destruct (stream_chunks (stream_reads w)); exact Hl.
  - simpl. fold chunks. rewrite <- !app_assoc. reflexivity.
  - reflexivity.
  - apply stream_chunks_sizes.
  - apply stream_chunks_sizes.
  - simpl. fold chunks. rewrite !count_app.
    assert (Hc : count is_didFail (map didReceiveAndroidFileData chunks) = O).
    { apply count_none. apply Forall_forall. intros n Hn.
      apply in_map_iff in Hn. destruct Hn as [d [<- _]]. reflexivity. }
    rewrite Hc. unfold count. simpl. lia.
Qed.


(** ** Further properties: the logs along the steps *)

Lemma protocol_app p l l' :
  protocol p (l ++ l') =
  match protocol p l with
  | Some p' => protocol p' l'
  | None => None
  end.
Proof.
  revert p. induction l as [|n l IH]; intros p; simpl; [reflexivity|].
  destruct (next_phase p n); [apply IH|reflexivity].
Qed.

Lemma transport_protocol_app p l l' :
  transport_protocol p (l ++ l') =
  match transport_protocol p l with
  | Some p' => transport_protocol p' l'
  | None => None
  end.
Proof.
  revert p. induction l as [|c l IH]; intros p; simpl; [reflexivity|].
  destruct (next_call p c); [apply IH|reflexivity].
Qed.

Lemma reads_of_app l l' : reads_of (l ++ l') = reads_of l ++ reads_of l'.
Proof. unfold reads_of. apply flat_map_app. Qed.

Lemma returns_bind {A B} (m : M A) (k : A -> M B) (Q1 : A -> World -> Prop)
      (Q : B -> World -> Prop) w :
  returns m Q1 w ->
  (forall a w', Q1 a w' -> returns (k a) Q w') ->
  returns (bind m k) Q w.
Proof.
  intros H1 H2. unfold returns in H1 |- *. unfold bind.
  destruct (m w) as [[a w']|f|]; [apply (H2 a w' H1)|exact I|exact I].
Qed.

Lemma bind_inv {A B} (m : M A) (k : A -> M B) w b w' :
  bind m k w = Returned (b, w') ->
  exists a w1, m w = Returned (a, w1) /\ k a w1 = Returned (b, w').
Proof.
  unfold bind. destruct (m w) as [[a w1]|f|]; try discriminate.
  intros H. exists a, w1. split; [reflexivity|exact H].
Qed.

Lemma finish_inv success w w' :
  finish success w = Returned (tt, w') -> live w /\ w' = finished success w.
Proof.
  unfold live. wreck w.
  unfold finish, bind, gets, ASSERT, modify, maybeCallOnMainThread. cbn.
  destruct (state_ltb st Finished); cbn; [|discriminate].
  destruct success; cbn; destruct ld; cbn; try discriminate;
    intros E; inversion E; split; reflexivity.
Qed.

Lemma read_inv w r w' :
  read w = Returned (r, w') ->
  exists r0 rest q,
    m_networkBuffer (self w) = None /\ m_request (self w) = Some q /\
    io_reads w = r0 :: rest /\ reading_state (m_loadState (self w)) = true /\
    r = (rr_ret r0, rr_bytes r0) /\ w' = after_read r0 rest w.
Proof.
  wreck w. unfold read, bind, gets, ASSERT, modify, new_IOBuffer, URLRequest_Read.
  cbn. destruct (reading_state st) eqn:Hs; cbn; [|discriminate].
  destruct nb; cbn; [discriminate|].
  destruct q as [q|]; [|discriminate]. destruct ios as [|r0 rest]; [discriminate|].
  intros E. inversion E. subst. exists r0, rest, q. repeat split.
Qed.

Lemma Facts_ext p tp w w' :
  Facts p tp w ->
  mainThread w' = mainThread w ->
  calls w' = calls w ->
  buffers_allocated w' = buffers_allocated w ->
  m_networkBuffer (self w') = m_networkBuffer (self w) ->
  m_androidUrl (self w') = m_androidUrl (self w) ->
  m_request (self w') = m_request (self w) ->
  Facts p tp w'.
Proof.
  unfold Facts. intros H E1 E2 E3 E4 E5 E6.
  rewrite E1, E2, E3, E4, E5, E6. exact H.
Qed.

Lemma Facts_post p p' tp n w w' :
  Facts p tp w ->
  next_phase p n = Some p' ->
  forwarded [n] = [] ->
  mainThread w' = mainThread w ++ [n] ->
  calls w' = calls w ->
  buffers_allocated w' = buffers_allocated w ->
  m_networkBuffer (self w') = m_networkBuffer (self w) ->
  m_androidUrl (self w') = m_androidUrl (self w) ->
  m_request (self w') = m_request (self w) ->
  Facts p' tp w'.
Proof.
  unfold Facts. intros (H1 & H2 & H3 & H4 & H5 & H6) Hn Hf E1 E2 E3 E4 E5 E6.
  rewrite E1, E2, E3, E4, E5, E6, protocol_app, H1, forwarded_app, Hf, app_nil_r.
  simpl. rewrite Hn. repeat split; auto; apply H6; assumption.
Qed.

Lemma Facts_log p tp tp' c w w' :
  Facts p tp w ->
  next_call tp c = Some tp' ->
  reads_of [c] = [] ->
  calls w' = calls w ++ [c] ->
  mainThread w' = mainThread w ->
  buffers_allocated w' = buffers_allocated w ->
  m_networkBuffer (self w') = m_networkBuffer (self w) ->
  m_androidUrl (self w') = m_androidUrl (self w) ->
  m_request (self w') = m_request (self w) ->
  Facts p tp' w'.
Proof.
  unfold Facts. intros (H1 & H2 & H3 & H4 & H5 & H6) Hn Hf E1 E2 E3 E4 E5 E6.
  rewrite E1, E2, E3, E4, E5, E6, transport_protocol_app, H2, reads_of_app, Hf,
    app_nil_r.
  simpl. rewrite Hn. repeat split; auto; apply H6; assumption.
Qed.

Lemma Facts_after_read p r rest q w :
  Facts p Running w ->
  m_networkBuffer (self w) = None ->
  m_request (self w) = Some q ->
  Facts p Running (after_read r rest w).
Proof.
  unfold Facts. intros (H1 & H2 & H3 & H4 & H5 & H6) Hb Hq.
  rewrite Hb in H5.
  unfold after_read, fresh_buffer.
  cbn [self mainThread calls buffers_allocated m_networkBuffer m_androidUrl
       m_request buf_id].
  rewrite transport_protocol_app, H2, reads_of_app, map_app, H3, seq_S.
  split; [exact H1|]. split; [reflexivity|]. split; [reflexivity|].
  split; [exact H4|]. split; [split; [exact H5|rewrite H5; reflexivity]|].
  intros Ha. destruct (H6 Ha) as [Hn _]. congruence.
Qed.

Lemma Facts_forward p tp n w :
  Facts p tp w ->
  (p = ResponseReceived \/ p = Receiving) ->
  Facts Receiving tp (forward n w).
Proof.
  unfold Facts. intros (H1 & H2 & H3 & H4 & H5 & H6) Hp.
  unfold forward.
  cbn [self mainThread calls buffers_allocated m_networkBuffer m_androidUrl
       m_request].
  rewrite protocol_app, H1, forwarded_app.
  split; [destruct Hp as [-> | ->]; reflexivity|].
  split; [exact H2|]. split; [exact H3|].
  destruct (m_networkBuffer (self w)) as [b|].
  - destruct H5 as [Hid Hna]. simpl. rewrite length_app. simpl.
    rewrite Nat.add_1_r, seq_S, <- H4, Hid. simpl.
    split; [reflexivity|]. split; [exact Hna|].
    intros Ha. destruct (H6 Ha) as [_ Hn]. discriminate.
  - simpl. rewrite app_nil_r. split; [exact H4|]. split; [exact H5|].
    intros Ha. destruct (H6 Ha) as [Hn _]. split; [exact Hn|reflexivity].
Qed.

Lemma Closed_finished p tp success w :
  Facts p tp w -> p <> Ended -> Closed (finished success w).
Proof.
  unfold Facts, Closed, Released. intros (H1 & H2 & H3 & H4 & H5 & H6) Hp.
  unfold finished.
  cbn [self mainThread calls buffers_allocated m_networkBuffer m_androidUrl
       m_request m_urlLoader m_inputStream].
  rewrite protocol_app, H1, forwarded_app.
  split.
  { destruct success; destruct p; try reflexivity; congruence. }
  split; [eauto|]. split; [exact H3|].
  assert (E : forwarded (mainThread w) ++
              forwarded [if success then didFinishLoading
                         else didFail (WebResponse_of_request (m_request (self w)))] =
              forwarded (mainThread w)).
  { destruct success; simpl; apply app_nil_r. }
  rewrite E. split; [exact H4|].
  split; [|auto].
  destruct (m_networkBuffer (self w)) as [b|]; [destruct H5 as [_ H5]|]; lia.
Qed.

Lemma finish_Settled p tp success w :
  Facts p tp w -> p <> Ended ->
  returns (finish success) (fun _ w' => Settled w') w.
Proof.
  intros HF Hp. unfold returns.
  destruct (finish success w) as [[[] w']|f|] eqn:E; [|exact I..].
  apply finish_inv in E. destruct E as [_ ->].
  apply (Closed_finished p tp success w HF Hp).
Qed.

Lemma returns_bind_inner {A B} (m : M A) (k : A -> M B) (Q : B -> World -> Prop) w :
  returns m (fun a w' => returns (k a) Q w') w -> returns (bind m k) Q w.
Proof.
  intros H. apply (returns_bind m k _ Q w H). auto.
Qed.

Lemma returns_gets {A B} (f : WebRequest -> A) (k : A -> M B) (Q : B -> World -> Prop) w :
  returns (k (f (self w))) Q w -> returns (bind (gets f) k) Q w.
Proof. intros H. exact H. Qed.

Lemma returns_modify {B} f (k : M B) (Q : B -> World -> Prop) w :
  returns k Q (with_self f w) -> returns (modify f ;; k) Q w.
Proof. intros H. exact H. Qed.

Lemma returns_ASSERT {B} c msg (k : M B) (Q : B -> World -> Prop) w :
  (c = true -> returns k Q w) -> returns (ASSERT c msg ;; k) Q w.
Proof.
  intros H. destruct c; [exact (H eq_refl)|exact I].
Qed.

Lemma returns_post {B} n (k : M B) (Q : B -> World -> Prop) w :
  returns k Q (post n w) -> returns (maybeCallOnMainThread n ;; k) Q w.
Proof.
  intros H. wreck w. destruct ld; [exact H|exact I].
Qed.

Lemma returns_post_last n (Q : unit -> World -> Prop) w :
  Q tt (post n w) -> returns (maybeCallOnMainThread n) Q w.
Proof.
  intros H. wreck w. destruct ld; [exact H|exact I].
Qed.

Lemma returns_on_request {B} c (k : M B) (Q : B -> World -> Prop) w :
  returns k Q (log_call c w) -> returns (on_request c ;; k) Q w.
Proof.
  intros H. wreck w. destruct q; [exact H|exact I].
Qed.

Lemma returns_on_request_last c (Q : unit -> World -> Prop) w :
  Q tt (log_call c w) -> returns (on_request c) Q w.
Proof.
  intros H. wreck w. destruct q; [exact H|exact I].
Qed.

Lemma returns_forward {B} n (k : M B) (Q : B -> World -> Prop) w :
  returns k Q (forward n w) ->
  returns (modify (with_loadState GotData) ;;
           nb <- gets m_networkBuffer ;;
           maybeCallOnMainThread (didReceiveData nb n) ;;
           modify (with_networkBuffer None) ;;
           k) Q w.
Proof.
  intros H. destruct (m_urlLoader (self w)) as [l|] eqn:El.
  - unfold returns. rewrite (forward_spec n w l k El). exact H.
  - wreck w. simpl in El. subst ld. exact I.
Qed.

Lemma Facts_state s p tp w :
  Facts p tp w -> Facts p tp (with_self (with_loadState s) w).
Proof. intros H. apply (Facts_ext p tp w _ H); reflexivity. Qed.

Lemma Facts_posted p p' tp n w :
  Facts p tp w -> next_phase p n = Some p' -> forwarded [n] = [] ->
  Facts p' tp (post n w).
Proof. intros H Hn Hf. apply (Facts_post p p' tp n w _ H Hn Hf); reflexivity. Qed.

Lemma Facts_logged p tp tp' c w :
  Facts p tp w -> next_call tp c = Some tp' -> reads_of [c] = [] ->
  Facts p tp' (log_call c w).
Proof. intros H Hn Hf. apply (Facts_log p tp tp' c w _ H Hn Hf); reflexivity. Qed.

Lemma Settled_reading w :
  reading_state (m_loadState (self w)) = true ->
  (Settled w <-> Facts (phase_of (m_loadState (self w))) Running w) /\
  (phase_of (m_loadState (self w)) = ResponseReceived \/
   phase_of (m_loadState (self w)) = Receiving).
Proof.
  unfold Settled. destruct (m_loadState (self w)); try discriminate; intros _;
    (split; [reflexivity|]); auto.
Qed.

Lemma startReading_loop_Settled fuel :
  forall w, Settled w -> returns (startReading_loop fuel) (fun _ w' => Settled w') w.
Proof.
  induction fuel as [|fuel IH]; intros w HS; [exact I|].
  unfold returns. simpl startReading_loop. unfold bind at 1.
  destruct (read w) as [[[ok n] w1]|f|] eqn:Er; [|exact I..].
  apply read_inv in Er.
  destruct Er as (r0 & rest & q & Hb & Hq & Hio & Hs & Er & ->).
  inversion Er. subst ok n. clear Er.
  destruct (Settled_reading w Hs) as [Hiff Hp].
  pose proof (Facts_after_read _ r0 rest q w (proj1 Hiff HS) Hb Hq) as HF1.
  set (w1 := after_read r0 rest w) in *.
  assert (Hs1 : m_loadState (self w1) = m_loadState (self w)) by reflexivity.
  destruct (rr_ret r0).
  - destruct (rr_bytes r0 =? 0).
    + apply (finish_Settled _ Running true w1 HF1).
      destruct Hp as [-> | ->]; discriminate.
    + apply returns_forward. apply IH.
      apply (Facts_forward _ Running (rr_bytes r0) w1 HF1 Hp).
  - unfold bind, gets.
    destruct (match m_request (self w1) with
              | Some q' => is_io_pending (status q')
              | None => false
              end).
    + unfold ret.
      assert (Hs' : reading_state (m_loadState (self w1)) = true)
        by (rewrite Hs1; exact Hs).
      apply (proj1 (Settled_reading w1 Hs')). rewrite Hs1. exact HF1.
    + apply (finish_Settled _ Running false w1 HF1).
      destruct Hp as [-> | ->]; discriminate.
Qed.

Lemma startReading_Settled w :
  Settled w -> returns startReading (fun _ w' => Settled w') w.
Proof.
  intros HS. unfold startReading. apply returns_gets. apply returns_ASSERT.
  intros _. apply startReading_loop_Settled. exact HS.
Qed.

Lemma androidReadLoop_Facts fuel tp :
  forall w,
    Facts ResponseReceived tp w \/ Facts Receiving tp w ->
    returns (androidReadLoop fuel)
            (fun _ w' => Facts ResponseReceived tp w' \/ Facts Receiving tp w') w.
Proof.
  induction fuel as [|fuel IH]; intros w HF; [exact I|].
  simpl androidReadLoop. apply returns_bind_inner.
  unfold returns at 1, readFromStream.
  destruct (stream_reads w) as [|r rest] eqn:Hr; [exact I|].
  destruct (sr_size r <? 0).
  - unfold returns, ret.
    destruct HF as [HF|HF]; [left|right];
      apply (Facts_ext _ tp w _ HF); reflexivity.
  - apply returns_modify. apply returns_post. apply IH. right.
    destruct HF as [HF|HF];
      [apply Facts_posted with (p := ResponseReceived)
      |apply Facts_posted with (p := Receiving)];
      try reflexivity;
      apply Facts_state; apply (Facts_ext _ tp w _ HF); reflexivity.
Qed.

Lemma handleDataURL_Settled u tp w :
  Facts AwaitingResponse tp w ->
  returns (handleDataURL u) (fun _ w' => Settled w') w.
Proof.
  intros HF. unfold handleDataURL. apply returns_bind_inner.
  destruct (DataURL_Parse u) as [[[mimeType charset] data]|].
  - apply returns_modify. apply returns_bind_inner. apply returns_post_last.
    match goal with
    | |- context [post ?n (with_self ?f w)] =>
        assert (HF1 : Facts ResponseReceived tp (post n (with_self f w)))
          by (apply Facts_posted with (p := AwaitingResponse);
              [apply Facts_state; exact HF|reflexivity|reflexivity]);
        set (w1 := post n (with_self f w)) in *
    end.
    destruct (negb (String.eqb data EmptyString)).
    + apply returns_modify. apply returns_post_last.
      apply (finish_Settled Receiving tp); [|discriminate].
      apply Facts_posted with (p := ResponseReceived);
        [apply Facts_state; exact HF1|reflexivity|reflexivity].
    + apply (finish_Settled ResponseReceived tp _ _ HF1). discriminate.
  - apply (finish_Settled AwaitingResponse tp _ _ HF). discriminate.
Qed.

Lemma Closed_null_stream tp w n :
  Facts AwaitingResponse tp w ->
  m_androidUrl (self w) = true ->
  m_inputStream (self w) = 0 ->
  terminal n = true ->
  Closed (post n (with_self (with_loadState Finished) w)).
Proof.
  unfold Facts, Closed, Released. intros (H1 & H2 & H3 & H4 & H5 & H6) Ha Hi Hn.
  destruct (H6 Ha) as [Hq Hb]. rewrite Hb in H5.
  unfold post, with_self, with_loadState.
  cbn [self mainThread calls buffers_allocated m_networkBuffer m_androidUrl
       m_request m_urlLoader m_inputStream].
  rewrite protocol_app, H1, forwarded_app.
  assert (E : forwarded [n] = []) by (destruct n; try discriminate Hn; reflexivity).
  rewrite E, app_nil_r.
  split; [simpl; destruct n; try discriminate Hn; reflexivity|].
  split; [eauto|]. split; [exact H3|]. split; [exact H4|].
  split; [lia|]. auto.
Qed.

Lemma handleAndroidURL_Settled tp w :
  Facts AwaitingResponse tp w ->
  m_androidUrl (self w) = true ->
  returns handleAndroidURL (fun _ w' => Settled w') w.
Proof.
  intros HF Ha. unfold handleAndroidURL.
  apply returns_gets. apply returns_gets.
  destruct (m_inputStream (self w) =? 0) eqn:Ei.
  - apply Z.eqb_eq in Ei. apply returns_modify. apply returns_post_last.
    apply (Closed_null_stream tp w _ HF Ha Ei). reflexivity.
  - apply returns_modify. apply returns_post. apply returns_bind_inner.
    match goal with
    | |- returns _ _ ?w1 =>
        assert (HF1 : Facts ResponseReceived tp w1)
          by (apply Facts_posted with (p := AwaitingResponse);
              [apply Facts_state; exact HF|reflexivity|reflexivity]);
        pose proof (androidReadLoop_Facts (S (List.length (stream_reads w1))) tp w1
                      (or_introl HF1)) as Hloop;
        unfold returns in Hloop |- *;
        destruct (androidReadLoop (S (List.length (stream_reads w1))) w1)
          as [[[] w2]|f|]; [|exact I..]
    end.
    destruct Hloop as [HF2|HF2].
    + apply (finish_Settled ResponseReceived tp true w2 HF2). discriminate.
    + apply (finish_Settled Receiving tp true w2 HF2). discriminate.
Qed.

Lemma Closed_state s w :
  Closed w -> Closed (with_self (with_loadState s) w).
Proof. intros H. exact H. Qed.

Lemma start_Settled p w : Settled w -> returns (start p) (fun _ w' => Settled w') w.
Proof.
  intros HS. unfold start. apply returns_gets. apply returns_ASSERT. intros Hst.
  unfold Settled in HS.
  destruct (m_loadState (self w)) eqn:Est; try discriminate Hst.
  apply returns_modify. apply returns_gets.
  cbn [with_self self with_loadState m_androidUrl m_request].
  destruct (m_androidUrl (self w)) eqn:Ea.
  - apply (handleAndroidURL_Settled Configuring); [apply Facts_state; exact HS|exact Ea].
  - apply returns_gets. cbn [with_self self with_loadState m_request].
    destruct (m_request (self w)) as [q'|]; [|exact I].
    destruct (SchemeIs (url q') "data").
    + apply (handleDataURL_Settled _ Configuring). apply Facts_state. exact HS.
    + destruct (SchemeIs (url q') "browser").
      * unfold handleBrowserURL.
        apply (handleDataURL_Settled _ Configuring). apply Facts_state. exact HS.
      * apply returns_on_request. apply returns_on_request_last.
        unfold Settled. cbn.
        apply Facts_logged with (tp := ContextSet); [|reflexivity|reflexivity].
        apply Facts_logged with (tp := Configuring); [|reflexivity|reflexivity].
        apply Facts_state. exact HS.
Qed.

Lemma cancel_Settled w : Settled w -> returns cancel (fun _ w' => Settled w') w.
Proof.
  intros HS. unfold cancel. apply returns_gets.
  apply returns_ASSERT. intros H1. apply returns_ASSERT. intros H2.
  pose proof HS as HS'. unfold Settled in HS.
  destruct (m_loadState (self w)) eqn:Est; try discriminate H1; try discriminate H2;
    cbn [state_ltb LoadState_rank Z.ltb Z.compare Pos.compare Pos.compare_cont];
    try exact HS';
    (apply returns_gets; apply returns_ASSERT; intros _;
     apply returns_modify; apply returns_on_request;
     eapply (finish_Settled _ Aborted); [|shelve];
     eapply Facts_logged; [apply Facts_state; exact HS|reflexivity|reflexivity]).
  Unshelve. all: discriminate.
Qed.

Lemma Settled_post_same n w :
  Settled w ->
  state_ltb (m_loadState (self w)) Response = true ->
  early n = true ->
  Settled (post n w).
Proof.
  unfold Settled. intros HS Hst Hn.
  change (m_loadState (self (post n w))) with (m_loadState (self w)).
  destruct (m_loadState (self w)); try discriminate Hst;
    (apply Facts_posted with (p := AwaitingResponse);
     [exact HS|simpl; rewrite Hn; reflexivity
     |destruct n; try discriminate Hn; reflexivity]).
Qed.

Lemma OnReceivedRedirect_Settled q' nu w :
  Settled w -> returns (OnReceivedRedirect q' nu) (fun _ w' => Settled w') w.
Proof.
  intros HS. unfold OnReceivedRedirect. apply returns_gets.
  apply returns_ASSERT. intros Hst.
  destruct q' as [q'|]; [|exact HS].
  destruct (is_success (status q')); [|exact HS].
  apply returns_post_last. apply Settled_post_same; auto.
Qed.

Lemma OnAuthRequired_Settled q' a w :
  Settled w -> returns (OnAuthRequired q' a) (fun _ w' => Settled w') w.
Proof.
  intros HS. unfold OnAuthRequired. apply returns_gets.
  apply returns_ASSERT. intros Hst.
  apply returns_post_last. apply Settled_post_same; auto.
  destruct (m_loadState (self w)); try discriminate Hst; reflexivity.
Qed.

Lemma AppendBytesToUpload_Settled d w :
  Settled w -> returns (AppendBytesToUpload d) (fun _ w' => Settled w') w.
Proof.
  intros HS. unfold AppendBytesToUpload. apply returns_gets.
  apply returns_ASSERT. intros Hst. apply returns_on_request_last.
  unfold Settled in *.
  change (m_loadState (self (log_call (call_AppendBytesToUpload d) w)))
    with (m_loadState (self w)).
  destruct (m_loadState (self w)); try discriminate Hst.
  apply Facts_logged with (tp := Configuring); [exact HS|reflexivity|reflexivity].
Qed.

Lemma setAuth_Settled u p w :
  Settled w -> returns (setAuth u p) (fun _ w' => Settled w') w.
Proof.
  intros HS. unfold setAuth. apply returns_gets.
  apply returns_ASSERT. intros Hst. apply returns_on_request_last.
  unfold Settled in *.
  change (m_loadState (self (log_call (call_SetAuth u p) w)))
    with (m_loadState (self w)).
  destruct (m_loadState (self w)); try discriminate Hst.
  apply Facts_logged with (tp := Running); [exact HS|reflexivity|reflexivity].
Qed.

Lemma cancelAuth_Settled w :
  Settled w -> returns cancelAuth (fun _ w' => Settled w') w.
Proof.
  intros HS. unfold cancelAuth. apply returns_gets.
  apply returns_ASSERT. intros Hst. apply returns_on_request_last.
  unfold Settled in *.
  change (m_loadState (self (log_call call_CancelAuth w)))
    with (m_loadState (self w)).
  destruct (m_loadState (self w)); try discriminate Hst.
  apply Facts_logged with (tp := Running); [exact HS|reflexivity|reflexivity].
Qed.

Lemma OnResponseStarted_Settled q' w :
  Settled w -> returns (OnResponseStarted q') (fun _ w' => Settled w') w.
Proof.
  intros HS. unfold OnResponseStarted. apply returns_gets.
  apply returns_ASSERT. intros Hst. apply returns_modify.
  unfold Settled in HS.
  destruct (m_loadState (self w)) eqn:Est; try discriminate Hst.
  destruct (match q' with Some q0 => is_success (status q0) | None => false end).
  - apply returns_post. apply startReading_Settled.
    unfold Settled. cbn.
    apply Facts_posted with (p := AwaitingResponse);
      [apply Facts_state; exact HS|reflexivity|reflexivity].
  - apply (finish_Settled AwaitingResponse Running); [|discriminate].
    apply Facts_state. exact HS.
Qed.

Lemma OnReadCompleted_Settled q' n w :
  Settled w -> returns (OnReadCompleted q' n) (fun _ w' => Settled w') w.
Proof.
  intros HS. unfold OnReadCompleted. apply returns_gets.
  apply returns_ASSERT. intros Hst.
  destruct (Settled_reading w Hst) as [Hiff Hp].
  pose proof (proj1 Hiff HS) as HF.
  destruct q' as [q'|]; [|exact I].
  destruct (is_success (status q')).
  - apply returns_forward. apply startReading_Settled.
    apply (Facts_forward _ Running n w HF Hp).
  - apply (finish_Settled _ Running false w HF).
    destruct Hp as [-> | ->]; discriminate.
Qed.

Lemma destroy_Settled w : Settled w -> returns destroy (fun _ w' => Settled w') w.
Proof.
  intros HS. unfold destroy. apply returns_gets.
  apply returns_ASSERT. intros Hst.
  unfold returns, modify. unfold Settled in *. cbn.
  destruct (m_loadState (self w)); try discriminate Hst. exact HS.
Qed.

Lemma step_Settled o w : Settled w -> returns (step o) (fun _ w' => Settled w') w.
Proof.
  intros H. destruct o; simpl.
  - apply AppendBytesToUpload_Settled; exact H.
  - apply start_Settled; exact H.
  - apply cancel_Settled; exact H.
  - apply setAuth_Settled; exact H.
  - apply cancelAuth_Settled; exact H.
  - apply OnReceivedRedirect_Settled; exact H.
  - apply OnAuthRequired_Settled; exact H.
  - apply OnResponseStarted_Settled; exact H.
  - apply OnReadCompleted_Settled; exact H.
  - apply destroy_Settled; exact H.
Qed.

Lemma run_Settled ops : forall w, Settled w -> returns (run ops) (fun _ w' => Settled w') w.
Proof.
  induction ops as [|o ops IH]; intros w H; simpl.
  - exact H.
  - eapply returns_bind; [apply step_Settled; exact H|].
    intros a w' H'. apply IH. exact H'.
Qed.

Lemma Settled_initial w : initial w -> Settled w.
Proof.
  intros [loader r qs answers|loader r ins answers];
    unfold Settled, Facts; simpl; repeat split; auto; discriminate.
Qed.

Lemma reachable_Settled w : reachable w -> Settled w.
Proof.
  intros (w0 & ops & H0 & Hrun).
  pose proof (run_Settled ops w0 (Settled_initial w0 H0)) as H.
  unfold returns in H. rewrite Hrun in H. exact H.
Qed.

(** ** Further properties: the load state only advances *)

Lemma returns_any {A} (m : M A) (Q : A -> World -> Prop) w :
  (forall a w', Q a w') -> returns m Q w.
Proof.
  intros H. unfold returns. destruct (m w) as [[a w']|f|]; auto.
Qed.

Lemma returns_weaken {A} (m : M A) (Q Q' : A -> World -> Prop) w :
  returns m Q w -> (forall a w', Q a w' -> Q' a w') -> returns m Q' w.
Proof.
  unfold returns. intros H HQ. destruct (m w) as [[a w']|f|]; auto.
Qed.

Lemma finish_Finished success w :
  returns (finish success) (fun _ w' => m_loadState (self w') = Finished) w.
Proof.
  unfold returns. destruct (finish success w) as [[[] w']|f|] eqn:E; [|exact I..].
  apply finish_inv in E. destruct E as [_ ->]. reflexivity.
Qed.

Lemma then_finish_Finished {A} (m : M A) success w :
  returns (m ;; finish success) (fun _ w' => m_loadState (self w') = Finished) w.
Proof.
  apply returns_bind_inner. apply returns_any. intros _ w'. apply finish_Finished.
Qed.

Lemma startReading_loop_rank fuel :
  forall w,
    returns (startReading_loop fuel)
            (fun _ w' => 2 <= LoadState_rank (m_loadState (self w)) <=
                         LoadState_rank (m_loadState (self w'))) w.
Proof.
  induction fuel as [|fuel IH]; intros w; [exact I|].
  unfold returns. simpl startReading_loop. unfold bind at 1.
  destruct (read w) as [[[ok n] w1]|f|] eqn:Er; [|exact I..].
  apply read_inv in Er.
  destruct Er as (r0 & rest & q & Hb & Hq & Hio & Hs & Er & ->).
  inversion Er. subst ok n. clear Er.
  set (w1 := after_read r0 rest w).
  assert (Hr : 2 <= LoadState_rank (m_loadState (self w)) <= 3).
  { destruct (m_loadState (self w)); try discriminate Hs; simpl; lia. }
  assert (Hfin : forall b, returns (finish b)
                   (fun _ w' => 2 <= LoadState_rank (m_loadState (self w)) <=
                                LoadState_rank (m_loadState (self w'))) w1).
  { intros b. apply (returns_weaken _ _ _ _ (finish_Finished b w1)).
    intros _ w' ->. simpl. lia. }
  destruct (rr_ret r0).
  - destruct (rr_bytes r0 =? 0); [apply Hfin|].
    apply returns_forward.
    apply (returns_weaken _ _ _ _ (IH (forward (rr_bytes r0) w1))).
    intros _ w'. simpl. lia.
  - unfold bind, gets.
    destruct (match m_request (self w1) with
              | Some q' => is_io_pending (status q')
              | None => false
              end); [|apply Hfin].
    unfold ret, w1. simpl. lia.
Qed.

Lemma startReading_rank w :
  returns startReading
          (fun _ w' => 2 <= LoadState_rank (m_loadState (self w)) <=
                       LoadState_rank (m_loadState (self w'))) w.
Proof.
  unfold startReading. apply returns_gets. apply returns_ASSERT. intros _.
  apply startReading_loop_rank.
Qed.

Lemma OnResponseStarted_rank q' w :
  returns (OnResponseStarted q')
          (fun _ w' => m_loadState (self w) = Started /\
                       2 <= LoadState_rank (m_loadState (self w'))) w.
Proof.
  unfold OnResponseStarted. apply returns_gets. apply returns_ASSERT. intros Hst.
  assert (Es : m_loadState (self w) = Started)
    by (destruct (m_loadState (self w)); try discriminate Hst; reflexivity).
  apply returns_modify.
  destruct (match q' with Some q0 => is_success (status q0) | None => false end).
  - apply returns_post.
    match goal with
    | |- returns _ _ ?w1 => apply (returns_weaken _ _ _ _ (startReading_rank w1))
    end.
    intros _ w'. split; [exact Es|lia].
  - match goal with
    | |- returns _ _ ?w1 => apply (returns_weaken _ _ _ _ (finish_Finished false w1))
    end.
    intros _ w' ->. split; [exact Es|simpl; lia].
Qed.

Lemma start_rank p w :
  returns (start p) (fun _ w' => 1 <= LoadState_rank (m_loadState (self w'))) w.
Proof.
  assert (Hfin : forall w1,
             m_loadState (self w1) = Finished ->
             1 <= LoadState_rank (m_loadState (self w1))).
  { intros w1 ->. simpl. lia. }
  unfold start. apply returns_gets. apply returns_ASSERT. intros _.
  apply returns_modify. apply returns_gets.
  cbn [with_self self with_loadState m_androidUrl].
  destruct (m_androidUrl (self w)).
  - unfold handleAndroidURL. apply returns_gets. apply returns_gets.
    destruct (_ =? 0).
    + apply returns_modify. apply returns_post_last. simpl. lia.
    + apply returns_modify. apply returns_post.
      match goal with
      | |- returns (?m ;; finish ?b) _ ?w1 =>
          apply (returns_weaken _ _ _ _ (then_finish_Finished m b w1))
      end.
      intros _ w1. apply Hfin.
  - apply returns_gets. cbn [with_self self with_loadState m_request].
    destruct (m_request (self w)) as [q'|]; [|exact I].
    destruct (SchemeIs (url q') "data").
    + unfold handleDataURL.
      match goal with
      | |- returns (?m ;; finish ?b) _ ?w1 =>
          apply (returns_weaken _ _ _ _ (then_finish_Finished m b w1))
      end.
      intros _ w1. apply Hfin.
    + destruct (SchemeIs (url q') "browser").
      * unfold handleBrowserURL, handleDataURL.
        match goal with
        | |- returns (?m ;; finish ?b) _ ?w1 =>
            apply (returns_weaken _ _ _ _ (then_finish_Finished m b w1))
        end.
        intros _ w1. apply Hfin.
      * apply returns_on_request. apply returns_on_request_last. simpl. lia.
Qed.

Lemma step_rank o w :
  returns (step o)
          (fun _ w' => LoadState_rank (m_loadState (self w)) <=
                       LoadState_rank (m_loadState (self w'))) w.
Proof.
  destruct o; simpl.
  - unfold AppendBytesToUpload. apply returns_gets. apply returns_ASSERT. intros _.
    apply returns_on_request_last. simpl. lia.
  - unfold start. apply returns_gets. apply returns_ASSERT. intros Hst.
    apply returns_any. intros _ w'.
    destruct (m_loadState (self w)); try discriminate Hst.
    destruct (m_loadState (self w')); simpl; lia.
  - unfold cancel. apply returns_gets.
    apply returns_ASSERT. intros H1. apply returns_ASSERT. intros H2.
    destruct (state_ltb Cancelled (m_loadState (self w))) eqn:E.
    + unfold returns, ret. lia.
    + apply returns_gets. apply returns_ASSERT. intros _.
      apply returns_modify. apply returns_on_request.
      match goal with
      | |- returns _ _ ?w1 => apply (returns_weaken _ _ _ _ (finish_Finished true w1))
      end.
      intros _ w' ->.
      destruct (m_loadState (self w)); try discriminate E; simpl; lia.
  - unfold setAuth. apply returns_gets. apply returns_ASSERT. intros _.
    apply returns_on_request_last. simpl. lia.
  - unfold cancelAuth. apply returns_gets. apply returns_ASSERT. intros _.
    apply returns_on_request_last. simpl. lia.
  - unfold OnReceivedRedirect. apply returns_gets. apply returns_ASSERT. intros _.
    destruct newRequest as [q'|]; [|unfold returns, ret; lia].
    destruct (is_success (status q')); [|unfold returns, ret; lia].
    apply returns_post_last. simpl. lia.
  - unfold OnAuthRequired. apply returns_gets. apply returns_ASSERT. intros _.
    apply returns_post_last. simpl. lia.
  - apply (returns_weaken _ _ _ _ (OnResponseStarted_rank request w)).
    intros _ w' [-> H]. simpl. lia.
  - unfold OnReadCompleted. apply returns_gets. apply returns_ASSERT. intros Hst.
    assert (Hr : LoadState_rank (m_loadState (self w)) <= 3).
    { destruct (m_loadState (self w)); try discriminate Hst; simpl; lia. }
    destruct request as [q'|]; [|exact I].
    destruct (is_success (status q')).
    + apply returns_forward.
      apply (returns_weaken _ _ _ _ (startReading_rank (forward bytesRead w))).
      intros _ w'. simpl. lia.
    + apply (returns_weaken _ _ _ _ (finish_Finished false w)).
      intros _ w' ->. simpl. lia.
  - unfold destroy. apply returns_gets. apply returns_ASSERT. intros Hst.
    unfold returns, modify. simpl.
    destruct (m_loadState (self w)); try discriminate Hst. simpl. lia.
Qed.

Lemma run_rank ops :
  forall w w',
    run ops w = Returned (tt, w') ->
    LoadState_rank (m_loadState (self w)) <= LoadState_rank (m_loadState (self w')).
Proof.
  induction ops as [|o ops IH]; intros w w'; simpl.
  - unfold ret. intros E. inversion E. lia.
  - intros E. apply bind_inv in E. destruct E as ([] & w1 & Es & Er).
    pose proof (step_rank o w) as H. unfold returns in H. rewrite Es in H.
    specialize (IH w1 w' Er). lia.
Qed.

(** ** Further properties of every execution *)

(** X1: once an execution has brought the request to [Finished] or [Deleted],
    [m_request] and [m_networkBuffer] are null, and [m_urlLoader] is null
    unless the request is that of an Android URL without input stream. *)
Theorem finished_released w :
  reachable w ->
  state_leb Finished (m_loadState (self w)) = true ->
  Released w.
Proof.
  intros Hr Hs. pose proof (reachable_Settled w Hr) as HS.
  unfold Settled in HS.
  destruct (m_loadState (self w)); try discriminate Hs; apply HS.
Qed.

Lemma not_response_of_kind n :
  (early n = true \/ is_data n = true \/ terminal n = true) ->
  is_didReceiveResponse n = false.
Proof. destruct n; simpl; intros [H|[H|H]]; try discriminate H; reflexivity. Qed.

Lemma count_cons {A} (p : A -> bool) x l :
  count p (x :: l) = ((if p x then 1 else 0) + count p l)%nat.
Proof. unfold count. simpl. destruct (p x); reflexivity. Qed.

Lemma protocol_responses a :
  forall p pa,
    protocol p a = Some pa ->
    (count is_didReceiveResponse a <= 1)%nat /\
    (p = AwaitingResponse -> pa = ResponseReceived \/ pa = Receiving ->
     count is_didReceiveResponse a = 1%nat) /\
    (p <> AwaitingResponse -> count is_didReceiveResponse a = O).
Proof.
  induction a as [|n a IH]; intros p pa; simpl.
  - intros E. inversion E. subst pa. unfold count. simpl.
    split; [lia|]. split; [|reflexivity].
    intros -> [H|H]; discriminate H.
  - destruct (next_phase p n) as [p1|] eqn:En; [|discriminate].
    intros E. destruct (IH p1 pa E) as (IH1 & IH2 & IH3).
    rewrite count_cons.
    destruct p; simpl in En.
    + destruct (early n) eqn:E1.
      * inversion En. subst p1.
        rewrite (not_response_of_kind n (or_introl E1)). simpl.
        split; [exact IH1|]. split; [exact IH2|congruence].
      * destruct (is_didReceiveResponse n) eqn:E2.
        -- inversion En. subst p1. simpl.
           assert (H0 : count is_didReceiveResponse a = O) by (apply IH3; discriminate).
           rewrite H0. split; [lia|]. split; [reflexivity|congruence].
        -- destruct (terminal n) eqn:E3; [|discriminate].
           inversion En. subst p1. simpl.
           assert (H0 : count is_didReceiveResponse a = O) by (apply IH3; discriminate).
           rewrite H0. split; [lia|]. split; [|congruence].
           intros _ Hpa. destruct a as [|m a']; simpl in E; [|discriminate].
           inversion E. subst pa. destruct Hpa; discriminate.
    + assert (H0 : count is_didReceiveResponse a = O).
      { apply IH3. destruct (is_data n); [inversion En; discriminate|].
        destruct (terminal n); inversion En; discriminate. }
      assert (H1 : is_didReceiveResponse n = false).
      { apply not_response_of_kind. destruct (is_data n); [auto|].
        destruct (terminal n); [auto|discriminate]. }
      rewrite H0, H1. simpl. split; [lia|]. split; [congruence|reflexivity].
    + assert (H0 : count is_didReceiveResponse a = O).
      { apply IH3. destruct (is_data n); [inversion En; discriminate|].
        destruct (terminal n); inversion En; discriminate. }
      assert (H1 : is_didReceiveResponse n = false).
      { apply not_response_of_kind. destruct (is_data n); [auto|].
        destruct (terminal n); [auto|discriminate]. }
      rewrite H0, H1. simpl. split; [lia|]. split; [congruence|reflexivity].
    + discriminate.
Qed.

(** X2: in every execution the notifications posted follow the order
    redirects and authentication challenges, then one [didReceiveResponse],
    then data, then one terminal notification, and the phase reached is the
    one of the load state; so [didReceiveResponse] is posted at most once and
    every data notification comes after it. *)
Theorem notifications_in_order w :
  reachable w ->
  protocol AwaitingResponse (mainThread w) = Some (phase_of (m_loadState (self w))) /\
  (count is_didReceiveResponse (mainThread w) <= 1)%nat /\
  (forall a n b, mainThread w = a ++ n :: b -> is_data n = true ->
                 count is_didReceiveResponse a = 1%nat).
Proof.
  intros Hr. pose proof (reachable_Settled w Hr) as HS.
  assert (Hp : protocol AwaitingResponse (mainThread w) =
               Some (phase_of (m_loadState (self w)))).
  { unfold Settled in HS.
    destruct (m_loadState (self w)); try contradiction; apply HS. }
  split; [exact Hp|]. split.
  - apply (protocol_responses _ _ _ Hp).
  - intros a n b E Hn. rewrite E, protocol_app in Hp.
    destruct (protocol AwaitingResponse a) as [pa|] eqn:Ea; [|discriminate].
    simpl in Hp. destruct (next_phase pa n) as [p1|] eqn:En; [|discriminate].
    apply (protocol_responses _ _ _ Ea); [reflexivity|].
    assert (He : early n = false) by (destruct n; try discriminate Hn; reflexivity).
    assert (Ht : terminal n = false) by (destruct n; try discriminate Hn; reflexivity).
    pose proof (not_response_of_kind n (or_intror (or_introl Hn))) as Hresp.
    destruct pa; simpl in En; auto; [|discriminate].
    rewrite He, Hresp, Ht in En. discriminate.
Qed.

(** X3: in every execution each [Read] was given a buffer of its own, numbered
    in the order of the calls; the buffers forwarded to the consumer are the
    first ones allocated, in that order and each once; at most the last
    buffer allocated has not been forwarded. *)
Theorem buffers_in_order w :
  reachable w ->
  map buf_id (reads_of (calls w)) = seq 0 (buffers_allocated w) /\
  forwarded (mainThread w) = seq 0 (List.length (forwarded (mainThread w))) /\
  (List.length (forwarded (mainThread w)) <= buffers_allocated w
   <= S (List.length (forwarded (mainThread w))))%nat.
Proof.
  intros Hr. pose proof (reachable_Settled w Hr) as HS.
  assert (HF : forall p tp, Facts p tp w ->
             map buf_id (reads_of (calls w)) = seq 0 (buffers_allocated w) /\
             forwarded (mainThread w) = seq 0 (List.length (forwarded (mainThread w))) /\
             (List.length (forwarded (mainThread w)) <= buffers_allocated w
              <= S (List.length (forwarded (mainThread w))))%nat).
  { intros p tp (_ & _ & H3 & H4 & H5 & _). split; [exact H3|]. split; [exact H4|].
    destruct (m_networkBuffer (self w)); [destruct H5 as [_ H5]|]; lia. }
  unfold Settled in HS.
  destruct (m_loadState (self w)); try contradiction; try (eapply HF; exact HS);
    destruct HS as (_ & _ & H3 & H4 & H5 & _); auto.
Qed.

(** X4: in every execution the calls made on the transport follow the order
    configuration and upload bytes, [set_context], [Start], then [Read],
    [SetAuth] and [CancelAuth], then [Cancel] as the last call; the request
    is being configured while [Created] and running from [Started] to
    [GotData]. *)
Theorem transport_in_order w :
  reachable w ->
  exists tp,
    transport_protocol Configuring (calls w) = Some tp /\
    (m_loadState (self w) = Created -> tp = Configuring) /\
    (In (m_loadState (self w)) [Started; Response; GotData] -> tp = Running).
Proof.
  intros Hr. pose proof (reachable_Settled w Hr) as HS.
  unfold Settled in HS.
  destruct (m_loadState (self w)) eqn:Est; try contradiction;
    try (destruct HS as (_ & H2 & _);
         eexists; split; [exact H2|]; split; [intros E|intros [E|[E|[E|[]]]]];
         first [reflexivity|discriminate E]);
    (destruct HS as (_ & (tp & H2) & _); exists tp; split; [exact H2|];
     split; [intros E|intros [E|[E|[E|[]]]]]; discriminate E).
Qed.

(** X5: along any sequence of calls that return, the load state never goes
    back in the order [Created], [Started], [Response], [GotData],
    [Cancelled], [Finished], [Deleted]. *)
Theorem load_state_advances ops w w' :
  run ops w = Returned (tt, w') ->
  LoadState_rank (m_loadState (self w)) <= LoadState_rank (m_loadState (self w')).
Proof. apply run_rank. Qed.


(** X7: once [start] has returned, in every world later calls lead to, a
    second [start] and [AppendBytesToUpload] crash on their assertion. *)
Theorem start_only_once p w w1 ops w2 :
  start p w = Returned (tt, w1) ->
  run ops w1 = Returned (tt, w2) ->
  (forall p', start p' w2 =
     Crashed (AssertionFailed "Start called on a WebRequest not in CREATED state: (%s)")) /\
  (forall d, AppendBytesToUpload d w2 =
     Crashed (AssertionFailed "Start called on a WebRequest not in CREATED state: (%s)")).
Proof.
  intros Hs Hrun.
  pose proof (start_rank p w) as H1. unfold returns in H1. rewrite Hs in H1.
  pose proof (run_rank ops w1 w2 Hrun) as H2.
  assert (H : 1 <= LoadState_rank (m_loadState (self w2))) by lia.
  wreck w2. simpl in H.
  destruct st; simpl in H; try lia; split; intros; reflexivity.
Qed.

(** X8: once [OnResponseStarted] has returned, in every world later calls
    lead to, credentials, authentication challenges, redirects and a second
    [OnResponseStarted] crash on their assertion. *)
Theorem response_closes_negotiation q w w1 ops w2 :
  OnResponseStarted q w = Returned (tt, w1) ->
  run ops w1 = Returned (tt, w2) ->
  (forall u p, setAuth u p w2 =
     Crashed (AssertionFailed
                "setAuth called on a WebRequest not in STARTED state (state=%d)")) /\
  cancelAuth w2 =
    Crashed (AssertionFailed
               "cancelAuth called on a WebRequest not in STARTED state (state=%d)") /\
  (forall q' a, OnAuthRequired q' a w2 =
     Crashed (AssertionFailed
                "OnAuthRequired called on a WebRequest not in STARTED state (state=%d)")) /\
  (forall q' nu, OnReceivedRedirect q' nu w2 =
     Crashed (AssertionFailed "Redirect after receiving response")) /\
  (forall q', OnResponseStarted q' w2 =
     Crashed (AssertionFailed "Got response after receiving response")).
Proof.
  intros Hs Hrun.
  pose proof (OnResponseStarted_rank q w) as H1. unfold returns in H1.
  rewrite Hs in H1. destruct H1 as [_ H1].
  pose proof (run_rank ops w1 w2 Hrun) as H2.
  assert (H : 2 <= LoadState_rank (m_loadState (self w2))) by lia.
  wreck w2. simpl in H.
  destruct st; simpl in H; try lia; repeat split; intros; reflexivity.
Qed.

(** ** Further properties of the content sources *)

(** [find_last_of] returns the index of an occurrence of the character
    after which it does not occur again, and nothing exactly when the
    character does not occur. *)
Lemma find_last_of_spec s c :
  match find_last_of s c with
  | Some i => char_at s i = Some c /\ (forall j, (i < j)%nat -> char_at s j <> Some c)
  | None => forall j, char_at s j <> Some c
  end.
Proof.
  unfold char_at. induction s as [|a s IH]; simpl.
  - intros j. destruct j; discriminate.
  - destruct (find_last_of s c) as [i|].
    + destruct IH as [IH1 IH2]. split; [exact IH1|].
      intros j Hj. destruct j as [|j]; [lia|]. apply IH2. lia.
    + destruct (Ascii.eqb a c) eqn:E.
      * apply Ascii.eqb_eq in E. subst a. split; [reflexivity|].
        intros j Hj. destruct j as [|j]; [lia|]. apply IH.
      * apply Ascii.eqb_neq in E. intros j. destruct j as [|j]; [congruence|apply IH].
Qed.

Lemma find_last_of_suffix u c m :
  find_last_of m c = None ->
  find_last_of (String.append u (String c m)) c = Some (String.length u).
Proof.
  intros Hm. induction u as [|a u IH]; simpl.
  - rewrite Hm, Ascii.eqb_refl. reflexivity.
  - rewrite IH. reflexivity.
Qed.

Lemma substring_all m : substring 0 (String.length m) m = m.
Proof. induction m as [|a m IH]; simpl; [reflexivity|rewrite IH; reflexivity]. Qed.

Lemma string_from_suffix u c m :
  string_from (S (String.length u)) (String.append u (String c m)) = m.
Proof.
  unfold string_from. induction u as [|a u IH]; simpl.
  - rewrite Nat.sub_0_r. apply substring_all.
  - exact IH.
Qed.

(** X9: when a URL ends with [?] followed by a MIME type without [?], the
    MIME type of the Android URL is that suffix, whatever the file extension
    would give. *)
Theorem mime_type_from_query u m :
  find_last_of m "?"%char = None ->
  androidMimeType (String.append u (String "?"%char m)) = m.
Proof.
  intros Hm. unfold androidMimeType.
  rewrite (find_last_of_suffix u _ m Hm). apply string_from_suffix.
Qed.

Lemma handleDataURL_completes u w l :
  live w ->
  m_urlLoader (self w) = Some l ->
  exists w',
    handleDataURL u w = Returned (tt, w') /\
    m_loadState (self w') = Finished /\
    (exists pre, mainThread w' = mainThread w ++ pre ++ [didFinishLoading] /\
                 Forall (fun n => terminal n = false) pre) /\
    calls w' = calls w /\ io_reads w' = io_reads w.
Proof.
  intros Hlive Hl. unfold handleDataURL.
  destruct (DataURL_Parse u) as [[[mimeType charset] data]|].
  - destruct (negb (String.eqb data EmptyString)) eqn:Ed.
    + eexists. split.
      * wreck w. simpl in Hl. subst ld. unfold bind at 1. cbn -[finish].
        apply (finish_spec true _ l); reflexivity.
      * split; [reflexivity|]. split; [|split; reflexivity].
        eexists [_; _]. simpl. rewrite <- !app_assoc. split; [reflexivity|].
        repeat constructor.
    + eexists. split.
      * wreck w. simpl in Hl. subst ld. unfold bind at 1. cbn -[finish].
        apply (finish_spec true _ l); reflexivity.
      * split; [reflexivity|]. split; [|split; reflexivity].
        eexists [_]. simpl. rewrite <- !app_assoc. split; [reflexivity|].
        repeat constructor.
  - eexists. split.
    + unfold bind at 1, ret. apply (finish_spec true w l Hlive Hl).
    + split; [reflexivity|]. split; [|split; reflexivity].
      exists []. split; [reflexivity|constructor].
Qed.

(** X10: [handleBrowserURL] always completes with [didFinishLoading] and
    without a terminal notification before it, and makes no call on the
    transport.  For [browser:incognito] with the start page in the assets it
    is the data URL of the prefix followed by the asset up to its first NUL
    character; for any other URL, or without the asset, the data URL of the
    prefix alone. *)
Theorem browser_url u w l :
  live w ->
  m_urlLoader (self w) = Some l ->
  (exists w',
      handleBrowserURL u w = Returned (tt, w') /\
      m_loadState (self w') = Finished /\
      (exists pre, mainThread w' = mainThread w ++ pre ++ [didFinishLoading] /\
                   Forall (fun n => terminal n = false) pre) /\
      calls w' = calls w) /\
  (forall asset,
      spec u = "browser:incognito" ->
      asset_open "webkit/incognito_mode_start_page.html" = Some asset ->
      handleBrowserURL u w =
        handleDataURL (mkGURL (String.append browser_prefix (c_str asset))) w) /\
  (spec u <> "browser:incognito" \/
   asset_open "webkit/incognito_mode_start_page.html" = None ->
   handleBrowserURL u w = handleDataURL (mkGURL browser_prefix) w).
Proof.
  intros Hlive Hl. split; [|split].
  - unfold handleBrowserURL.
    match goal with
    | |- exists w', handleDataURL ?g w = _ /\ _ =>
        destruct (handleDataURL_completes g w l Hlive Hl)
          as (w' & H1 & H2 & H3 & H4 & _)
    end.
    exists w'. auto.
  - intros asset Hu Ha. unfold handleBrowserURL. rewrite Hu, Ha. reflexivity.
  - intros H. unfold handleBrowserURL.
    destruct (String.eqb (spec u) "browser:incognito") eqn:E; [|reflexivity].
    apply String.eqb_eq in E. destruct H as [H|H]; [contradiction|].
    rewrite H. reflexivity.
Qed.

(** X11: the request of a [data:] or [browser:] URL is served by [start]
    itself: [start] returns with the request [Finished], [didFinishLoading]
    posted last and alone as terminal notification, no call made on the
    transport after the constructor's and none of its answers read. *)
Theorem local_url_completes p loader r qs answers :
  SchemeIs (mkGURL (wr_url r)) "data" = true \/
  SchemeIs (mkGURL (wr_url r)) "browser" = true ->
  exists w',
    start p (WebRequest_new loader r qs answers) = Returned (tt, w') /\
    m_loadState (self w') = Finished /\
    (exists pre, mainThread w' = pre ++ [didFinishLoading] /\
                 Forall (fun n => terminal n = false) pre) /\
    calls w' = calls (WebRequest_new loader r qs answers) /\
    io_reads w' = answers.
Proof.
  intros Hscheme.
  set (w1 := with_self (with_loadState Started) (WebRequest_new loader r qs answers)).
  assert (Hlive : live w1) by reflexivity.
  assert (Hl : m_urlLoader (self w1) = Some loader) by reflexivity.
  assert (E : exists g, start p (WebRequest_new loader r qs answers) =
                        handleDataURL g w1).
  { unfold start, WebRequest_new in *.
    cbn -[handleDataURL handleBrowserURL SchemeIs].
    destruct (SchemeIs (mkGURL (wr_url r)) "data").
    - eexists. reflexivity.
    - destruct Hscheme as [H|H]; [discriminate|]. rewrite H.
      unfold handleBrowserURL. eexists. reflexivity. }
  destruct E as [g E].
  destruct (handleDataURL_completes g w1 loader Hlive Hl)
    as (w' & H1 & H2 & (pre & H3 & H3') & H4 & H5).
  exists w'. rewrite E. split; [exact H1|]. split; [exact H2|].
  split; [exists pre; split; [exact H3|exact H3']|]. split; [exact H4|exact H5].
Qed.

(** X12: upload bytes appended before [start] reach the transport in the
    order they were given, and appending changes nothing else. *)
Theorem uploads_in_order chunks :
  forall w q,
    m_loadState (self w) = Created ->
    m_request (self w) = Some q ->
    exists w',
      run (map op_AppendBytesToUpload chunks) w = Returned (tt, w') /\
      self w' = self w /\
      mainThread w' = mainThread w /\
      calls w' = calls w ++ map call_AppendBytesToUpload chunks.
Proof.
  induction chunks as [|d chunks IH]; intros w q Hs Hq; simpl.
  - exists w. rewrite app_nil_r. repeat split.
  - destruct (IH (log_call (call_AppendBytesToUpload d) w) q Hs Hq)
      as (w' & H1 & H2 & H3 & H4).
    exists w'. split.
    + unfold bind at 1, AppendBytesToUpload, bind at 1, gets, bind at 1, ASSERT.
      rewrite Hs. cbn [state_eqb LoadState_rank Z.eqb ret].
      unfold on_request, bind at 1, gets. rewrite Hq. exact H1.
    + split; [exact H2|]. split; [exact H3|].
      rewrite H4. simpl. rewrite <- app_assoc. reflexivity.
Qed.

(** X13: the request of an Android URL never has a transport request nor a
    network buffer, so on it [AppendBytesToUpload], [setAuth] and
    [cancelAuth] never return. *)
Theorem android_has_no_transport w :
  reachable w ->
  m_androidUrl (self w) = true ->
  m_request (self w) = None /\
  m_networkBuffer (self w) = None /\
  (forall d, exists f, AppendBytesToUpload d w = Crashed f) /\
  (forall u p, exists f, setAuth u p w = Crashed f) /\
  (exists f, cancelAuth w = Crashed f).
Proof.
  intros Hr Ha. pose proof (reachable_Settled w Hr) as HS.
  assert (H : m_request (self w) = None /\ m_networkBuffer (self w) = None).
  { unfold Settled in HS.
    destruct (m_loadState (self w)); try contradiction;
      try (destruct HS as (_ & _ & _ & _ & _ & H6); apply (H6 Ha));
      destruct HS as (_ & _ & _ & _ & _ & (Hq & Hb & _)); auto. }
  destruct H as [Hq Hb]. split; [exact Hq|]. split; [exact Hb|].
  wreck w. simpl in Hq. subst q.
  split; [|split]; intros;
    unfold AppendBytesToUpload, setAuth, cancelAuth, bind, gets, ASSERT, on_request;
    cbn; match goal with
         | |- context [if ?c then _ else _] => destruct c
         end; cbn; eexists; reflexivity.
Qed.

Lemma stream_chunks_firstn answers :
  Forall fits (stream_taken answers) ->
  stream_chunks answers =
  map (fun r => firstn (Z.to_nat (sr_size r)) (sr_array r)) (stream_taken answers).
Proof.
  induction answers as [|r rest IH]; simpl; [reflexivity|].
  destruct (sr_size r <? 0) eqn:E; [reflexivity|].
  intros Hf. inversion Hf as [|? ? Hr Hrest]. subst.
  simpl. rewrite (IH Hrest). f_equal.
  apply Z.ltb_ge in E. unfold fits in Hr.
  unfold GetByteArrayRegion, new_vector.
  assert (Hb : (0 <=? 0) && (0 <=? sr_size r) &&
               (0 + sr_size r <=? Z.of_nat (List.length (sr_array r))) = true).
  { apply andb_true_iff. split; [apply andb_true_iff; split|]; apply Z.leb_le; lia. }
  rewrite Hb. simpl skipn at 1.
  rewrite skipn_all2; [apply app_nil_r|rewrite repeat_length; lia].
Qed.

Lemma handleAndroidURL_returns w l :
  m_inputStream (self w) <> 0 ->
  live w ->
  m_urlLoader (self w) = Some l ->
  stream_ends (stream_reads w) = true ->
  handleAndroidURL w =
  Returned (tt, finished true
                  (after_stream
                     (post (didReceiveResponse
                              (WebResponse_of_fields (m_url (self w))
                                 (androidMimeType (m_url (self w))) 0 EmptyString 200))
                           (with_self (with_loadState Response) w)))).
Proof.
  intros Hi Hlive Hl He.
  match goal with
  | |- _ = Returned (tt, finished true (after_stream ?x)) => set (w1 := x)
  end.
  assert (Hloop : androidReadLoop (S (List.length (stream_reads w1))) w1 =
                  Returned (tt, after_stream w1)).
  { apply (androidReadLoop_spec (stream_reads w1) _ w1 l);
      [reflexivity|exact He|lia|exact Hl]. }
  unfold handleAndroidURL, bind at 1, bind at 1, gets.
  apply Z.eqb_neq in Hi. rewrite Hi.
  unfold bind at 1, modify. unfold bind at 1, maybeCallOnMainThread at 1, bind at 1, gets.
  cbn [self with_self m_urlLoader with_loadState]. rewrite Hl.
  fold w1. unfold bind at 1. rewrite Hloop.
  apply (finish_spec true (after_stream w1) l).
  - unfold live, after_stream. simpl.
    destruct (stream_chunks (stream_reads w)); reflexivity.
  - unfold after_stream. simpl.
    destruct (stream_chunks (stream_reads w)); exact Hl.
Qed.

(** X14: when every size the stream answers is within the Java array, the
    chunks posted for an Android URL are the first [size] bytes of the array
    after each read, in the order read; the answers after the first negative
    size are left unread. *)
Theorem stream_bytes_posted w l :
  m_inputStream (self w) <> 0 ->
  live w ->
  m_urlLoader (self w) = Some l ->
  stream_ends (stream_reads w) = true ->
  Forall fits (stream_taken (stream_reads w)) ->
  exists w',
    handleAndroidURL w = Returned (tt, w') /\
    mainThread w' =
      mainThread w ++
        didReceiveResponse
          (WebResponse_of_fields (m_url (self w)) (androidMimeType (m_url (self w)))
                                 0 EmptyString 200)
        :: map (fun r => didReceiveAndroidFileData
                           (firstn (Z.to_nat (sr_size r)) (sr_array r)))
               (stream_taken (stream_reads w))
        ++ [didFinishLoading] /\
    stream_reads w' = stream_rest (stream_reads w).
Proof.
  intros Hi Hlive Hl He Hf.
  eexists. split; [apply (handleAndroidURL_returns w l Hi Hlive Hl He)|].
  split; [|reflexivity].
  simpl. rewrite (stream_chunks_firstn _ Hf), map_map, <- !app_assoc. reflexivity.
Qed.

(** ** Further properties of the read loop *)

Lemma data_chunks_app first a b :
  data_chunks first (a ++ b) =
  data_chunks first a ++ data_chunks (first + List.length a) b.
Proof.
  revert first. induction a as [|r a IH]; intros first; simpl.
  - rewrite Nat.add_0_r. reflexivity.
  - rewrite IH, Nat.add_succ_r. reflexivity.
Qed.

(** X15: when the transport answers a run of reads at once with some bytes
    and then the end of the body, [startReading] posts one [didReceiveData]
    per read, in order, each with the buffer of that read and its byte count,
    then [didFinishLoading]; it has allocated one buffer per [Read] and left
    the later answers unread. *)
Theorem startReading_to_the_end chunks :
  forall w q l last rest,
    reading_state (m_loadState (self w)) = true ->
    m_networkBuffer (self w) = None ->
    m_request (self w) = Some q ->
    m_urlLoader (self w) = Some l ->
    Forall read_some chunks ->
    rr_ret last = true -> rr_bytes last = 0 ->
    io_reads w = chunks ++ last :: rest ->
    exists w',
      startReading w = Returned (tt, w') /\
      m_loadState (self w') = Finished /\
      mainThread w' =
        mainThread w ++ data_chunks (buffers_allocated w) chunks ++ [didFinishLoading] /\
      buffers_allocated w' = (buffers_allocated w + S (List.length chunks))%nat /\
      io_reads w' = rest.
Proof.
  induction chunks as [|r chunks IH]; intros w q l last rest Hs Hb Hq Hl Hc Hret Hz Hio.
  - simpl in Hio.
    exists (finished true (after_read last rest w)).
    rewrite (startReading_step w q last rest Hs Hb Hq Hio), Hret, Hz. simpl.
    split.
    + apply (finish_spec true (after_read last rest w) l); [|exact Hl].
      unfold live. simpl.
      destruct (m_loadState (self w)); try discriminate Hs; reflexivity.
    + repeat split. simpl. lia.
  - simpl in Hio. inversion Hc as [|? ? [Hr1 Hr2] Hc']. subst.
    set (w1 := forward (rr_bytes r) (after_read r (chunks ++ last :: rest) w)).
    destruct (IH w1 {| url := url q; status := rr_status r |} l last rest)
      as (w' & H1 & H2 & H3 & H4 & H5); try reflexivity; try assumption.
    { unfold w1. simpl. rewrite Hq. reflexivity. }
    exists w'. split.
    + rewrite (startReading_step w q r _ Hs Hb Hq Hio), Hr1.
      apply Z.eqb_neq in Hr2. rewrite Hr2.
      rewrite (forward_spec (rr_bytes r)
                 (after_read r (chunks ++ last :: rest) w) l _ Hl).
      fold w1. rewrite <- H1. rewrite (startReading_loop_eq w1); reflexivity.
    + split; [exact H2|]. split; [|split; [|exact H5]].
      * rewrite H3. unfold w1. simpl. rewrite <- !app_assoc. reflexivity.
      * rewrite H4. unfold w1. simpl. lia.
Qed.

(** ** Further properties of the network request *)

(** X16: for a URL that is neither [data:] nor [browser:], the constructor
    and [start] configure the transport with the headers, the referrer and
    the method, then its context, then start it; [start] leaves the request
    [Started] with nothing posted and no answer of the transport read. *)
Theorem network_start p loader r qs answers :
  SchemeIs (mkGURL (wr_url r)) "data" = false ->
  SchemeIs (mkGURL (wr_url r)) "browser" = false ->
  exists w',
    start p (WebRequest_new loader r qs answers) = Returned (tt, w') /\
    m_loadState (self w') = Started /\
    calls w' = [call_SetExtraRequestHeaders (wr_requestHeaders r);
                call_set_referrer (wr_referrer r);
                call_set_method (wr_method r);
                call_set_context p;
                call_Start] /\
    mainThread w' = [] /\
    io_reads w' = answers /\
    buffers_allocated w' = O.
Proof.
  intros Hd Hb. eexists. split.
  - unfold start, WebRequest_new.
    cbn -[handleDataURL handleBrowserURL SchemeIs].
    rewrite Hd, Hb. reflexivity.
  - repeat split.
Qed.

(** X17: between two calls of any execution an unfinished request still
    holds its loader, and its transport request unless it is the request of
    an Android URL, which is unfinished only before [start]. *)
Theorem live_request_holds_references w :
  reachable w ->
  live w ->
  m_urlLoader (self w) <> None /\
  (m_androidUrl (self w) = false -> m_request (self w) <> None) /\
  (m_androidUrl (self w) = true -> m_loadState (self w) = Created).
Proof.
  intros Hr Hlive. destruct (reachable_Inv w Hr) as [[G|D] Id].
  - destruct G as (_ & _ & Hl & _). destruct Id as (_ & Hq & Ha & _).
    split; [exact Hl|]. split; [intros E; apply (Hq E Hlive)|].
    intros E. destruct (Ha E) as [H|H]; [exact H|].
    unfold live in Hlive.
    destruct (m_loadState (self w)); discriminate.
  - destruct D as (Hs & _). unfold live in Hlive.
    destruct (m_loadState (self w)); discriminate.
Qed.

(** ** Every load that ends posts its terminal notification *)

Lemma is_end_terminal success t : is_end success t = true -> terminal t = true.
Proof. destruct t; simpl; intros H; try discriminate H; reflexivity. Qed.

Lemma ended_intro success w w' pre t :
  Forall (fun n => terminal n = false) (mainThread w) ->
  m_loadState (self w') = Finished ->
  mainThread w' = mainThread w ++ pre ++ [t] ->
  is_end success t = true ->
  Forall (fun n => terminal n = false) pre ->
  ended success w w'.
Proof.
  intros Hw Hs Hm Ht Hpre. split; [exact Hs|]. split.
  - exists pre, t. auto.
  - rewrite Hm, !count_app, (count_none _ _ Hw), (count_none _ _ Hpre).
    unfold count. simpl. rewrite (is_end_terminal success t Ht). reflexivity.
Qed.

Lemma reachable_live w :
  reachable w ->
  live w ->
  Forall (fun n => terminal n = false) (mainThread w) /\
  (exists l, m_urlLoader (self w) = Some l) /\
  (m_androidUrl (self w) = false -> exists q, m_request (self w) = Some q) /\
  (m_androidUrl (self w) = true -> m_loadState (self w) = Created) /\
  (state_leb (m_loadState (self w)) Started = true ->
   m_networkBuffer (self w) = None).
Proof.
  intros Hr Hlive. destruct (reachable_Inv w Hr) as [[G|D] Id].
  - destruct Id as (Hearly & Hq & Ha & _).
    split; [apply G|]. split; [apply Good_loader; exact G|].
    split; [|split].
    + intros E. destruct (m_request (self w)) as [q|] eqn:Eq; [eauto|].
      exfalso. apply (Hq E Hlive). reflexivity.
    + intros E. destruct (Ha E) as [H|H]; [exact H|].
      unfold live in Hlive. destruct (m_loadState (self w)); discriminate.
    + intros E. apply (Hearly E).
  - destruct D as (Hs & _). unfold live in Hlive.
    destruct (m_loadState (self w)); discriminate.
Qed.

Lemma start_android p w :
  m_loadState (self w) = Created ->
  m_androidUrl (self w) = true ->
  start p w = handleAndroidURL (with_self (with_loadState Started) w).
Proof. wreck w. simpl. intros -> ->. reflexivity. Qed.

Lemma start_local p w q :
  m_loadState (self w) = Created ->
  m_androidUrl (self w) = false ->
  m_request (self w) = Some q ->
  SchemeIs (url q) "data" = true \/ SchemeIs (url q) "browser" = true ->
  exists g, start p w = handleDataURL g (with_self (with_loadState Started) w).
Proof.
  wreck w. simpl. intros -> -> -> Hscheme.
  unfold start. cbn -[handleDataURL handleBrowserURL SchemeIs].
  destruct (SchemeIs (url q) "data").
  - eexists. reflexivity.
  - destruct Hscheme as [H|H]; [discriminate|]. rewrite H.
    unfold handleBrowserURL. eexists. reflexivity.
Qed.

Lemma startReading_ends chunks :
  forall w q l last rest success,
    reading_state (m_loadState (self w)) = true ->
    m_networkBuffer (self w) = None ->
    m_request (self w) = Some q ->
    m_urlLoader (self w) = Some l ->
    Forall read_some chunks ->
    ends_load last = Some success ->
    io_reads w = chunks ++ last :: rest ->
    exists w' pre t,
      startReading w = Returned (tt, w') /\
      m_loadState (self w') = Finished /\
      mainThread w' = mainThread w ++ pre ++ [t] /\
      is_end success t = true /\
      Forall (fun n => terminal n = false) pre.
Proof.
  induction chunks as [|r chunks IH];
    intros w q l last rest success Hs Hb Hq Hl Hc Hend Hio.
  - simpl in Hio.
    assert (Hlive : live (after_read last rest w)).
    { unfold live. simpl.
      destruct (m_loadState (self w)); try discriminate Hs; reflexivity. }
    pose proof (startReading_step w q last rest Hs Hb Hq Hio) as Hstep.
    unfold ends_load in Hend.
    destruct (rr_ret last).
    + destruct (rr_bytes last =? 0); [|discriminate Hend].
      inversion Hend. subst success.
      exists (finished true (after_read last rest w)), [], didFinishLoading.
      split; [rewrite Hstep; apply (finish_spec true _ l Hlive Hl)|].
      split; [reflexivity|]. split; [reflexivity|]. split; [reflexivity|constructor].
    + destruct (is_io_pending (rr_status last)) eqn:Ep; [discriminate Hend|].
      inversion Hend. subst success.
      exists (finished false (after_read last rest w)), [],
             (didFail (WebResponse_of_request
                         (m_request (self (after_read last rest w))))).
      split.
      * rewrite Hstep. unfold bind, gets. simpl. rewrite Hq. simpl. rewrite Ep.
        apply (finish_spec false _ l Hlive Hl).
      * split; [reflexivity|]. split; [reflexivity|]. split; [reflexivity|constructor].
  - simpl in Hio. inversion Hc as [|? ? [Hr1 Hr2] Hc']. subst.
    set (w1 := forward (rr_bytes r) (after_read r (chunks ++ last :: rest) w)).
    destruct (IH w1 {| url := url q; status := rr_status r |} l last rest success)
      as (w' & pre & t & H1 & H2 & H3 & H4 & H5); try reflexivity; try assumption.
    { unfold w1. simpl. rewrite Hq. reflexivity. }
    exists w', (didReceiveData (Some (fresh_buffer w)) (rr_bytes r) :: pre), t.
    split.
    + rewrite (startReading_step w q r _ Hs Hb Hq Hio), Hr1.
      apply Z.eqb_neq in Hr2. rewrite Hr2.
      rewrite (forward_spec (rr_bytes r)
                 (after_read r (chunks ++ last :: rest) w) l _ Hl).
      fold w1. rewrite <- H1. rewrite (startReading_loop_eq w1); reflexivity.
    + split; [exact H2|]. split; [|split; [exact H4|]].
      * rewrite H3. unfold w1. simpl. rewrite <- !app_assoc. reflexivity.
      * constructor; [reflexivity|exact H5].
Qed.

(** C1: in every execution the number of terminal notifications
    ([didFinishLoading], [didFail]) posted is one when the request has
    finished and none before, and no notification follows a terminal one.
    And the terminal notification is posted, once, by every call that ends
    the load: by [start] for an Android, [data:] or [browser:] URL; by
    [cancel] on a started request; by [OnResponseStarted] and
    [OnReadCompleted] when the transport reports a failure, and when the
    reads they issue reach the end of the body or a failure.  So a request
    that can be destroyed has posted exactly one. *)
Theorem terminal_notification_once w :
  reachable w ->
  (count terminal (mainThread w) =
     (if state_leb Finished (m_loadState (self w)) then 1 else 0)%nat /\
   (forall a n b, mainThread w = a ++ n :: b -> terminal n = true -> b = [])) /\
  (m_loadState (self w) = Created -> m_androidUrl (self w) = true ->
   forall p,
     (m_inputStream (self w) = 0 ->
      exists w', start p w = Returned (tt, w') /\ ended false w w') /\
     (m_inputStream (self w) <> 0 -> stream_ends (stream_reads w) = true ->
      exists w', start p w = Returned (tt, w') /\ ended true w w')) /\
  (m_loadState (self w) = Created -> m_androidUrl (self w) = false ->
   forall p q,
     m_request (self w) = Some q ->
     SchemeIs (url q) "data" = true \/ SchemeIs (url q) "browser" = true ->
     exists w', start p w = Returned (tt, w') /\ ended true w w') /\
  (In (m_loadState (self w)) [Started; Response; GotData] ->
   exists w', cancel w = Returned (tt, w') /\ ended true w w') /\
  (m_loadState (self w) = Started ->
   forall q,
     (response_failed q = true ->
      exists w', OnResponseStarted q w = Returned (tt, w') /\ ended false w w') /\
     (forall chunks last rest success,
         response_failed q = false ->
         io_reads w = chunks ++ last :: rest ->
         Forall read_some chunks ->
         ends_load last = Some success ->
         exists w', OnResponseStarted q w = Returned (tt, w') /\
                    ended success w w')) /\
  (reading_state (m_loadState (self w)) = true ->
   forall q n,
     (is_success (status q) = false ->
      exists w', OnReadCompleted (Some q) n w = Returned (tt, w') /\
                 ended false w w') /\
     (forall chunks last rest success,
         is_success (status q) = true ->
         io_reads w = chunks ++ last :: rest ->
         Forall read_some chunks ->
         ends_load last = Some success ->
         exists w', OnReadCompleted (Some q) n w = Returned (tt, w') /\
                    ended success w w')) /\
  (forall w', destroy w = Returned (tt, w') ->
              count terminal (mainThread w) = 1%nat).
Proof.
  intros Hr. split; [apply Inv_terminals; apply reachable_Inv; exact Hr|].
  assert (Hfacts : live w ->
            Forall (fun n => terminal n = false) (mainThread w) /\
            (exists l, m_urlLoader (self w) = Some l) /\
            (m_androidUrl (self w) = false -> exists q, m_request (self w) = Some q) /\
            (m_androidUrl (self w) = true -> m_loadState (self w) = Created) /\
            (state_leb (m_loadState (self w)) Started = true ->
             m_networkBuffer (self w) = None))
    by (apply reachable_live; exact Hr).
  split; [|split; [|split; [|split; [|split]]]].
  - (* Android URLs *)
    intros Hs Ha p.
    destruct Hfacts as (Hnt & (l & Hl) & _); [unfold live; rewrite Hs; reflexivity|].
    split.
    + intros Hi. eexists.
      split; [apply (start_null_stream p w l Hs Ha Hi Hl)|].
      eapply (ended_intro false w _ [] _ Hnt); try reflexivity. constructor.
    + intros Hi He.
      set (w1 := with_self (with_loadState Started) w).
      eexists. split.
      * rewrite (start_android p w Hs Ha).
        apply (handleAndroidURL_returns w1 l Hi); [reflexivity|exact Hl|exact He].
      * eapply (ended_intro true w _
                  (_ :: map didReceiveAndroidFileData (stream_chunks (stream_reads w)))
                  didFinishLoading Hnt); try reflexivity.
        -- simpl. rewrite <- !app_assoc. reflexivity.
        -- constructor; [reflexivity|]. apply Forall_forall. intros n Hn.
           apply in_map_iff in Hn. destruct Hn as [d [<- _]]. reflexivity.
  - (* data and browser URLs *)
    intros Hs Ha p q Hq Hscheme.
    destruct Hfacts as (Hnt & (l & Hl) & _); [unfold live; rewrite Hs; reflexivity|].
    destruct (start_local p w q Hs Ha Hq Hscheme) as [g Eg].
    set (w1 := with_self (with_loadState Started) w) in *.
    destruct (handleDataURL_completes g w1 l) as (w' & H1 & H2 & (pre & H3 & H4) & _);
      [reflexivity|exact Hl|].
    exists w'. split; [rewrite Eg; exact H1|].
    apply (ended_intro true w w' pre didFinishLoading Hnt H2 H3); [reflexivity|exact H4].
  - (* cancel *)
    intros Hs.
    assert (Hlive : live w).
    { unfold live. destruct Hs as [E|[E|[E|[]]]]; rewrite <- E; reflexivity. }
    destruct (Hfacts Hlive) as (Hnt & (l & Hl) & Hq & Ha & _).
    assert (Han : m_androidUrl (self w) = false).
    { destruct (m_androidUrl (self w)); [|reflexivity].
      rewrite (Ha eq_refl) in Hs. destruct Hs as [E|[E|[E|[]]]]; discriminate E. }
    destruct (Hq Han) as [q Eq].
    destruct (cancel_live w l q Hs Hl Eq) as [_ E2].
    eexists. split; [exact E2|].
    eapply (ended_intro true w _ [] didFinishLoading Hnt); try reflexivity. constructor.
  - (* OnResponseStarted *)
    intros Hs q.
    assert (Hlive : live w) by (unfold live; rewrite Hs; reflexivity).
    destruct (Hfacts Hlive) as (Hnt & (l & Hl) & Hq & Ha & Hb).
    split.
    + intros Hf. destruct (OnResponseStarted_failed q w l Hs Hl Hf) as [_ E2].
      eexists. split; [exact E2|].
      eapply (ended_intro false w _ [] _ Hnt); try reflexivity. constructor.
    + intros chunks last rest success Hf Hio Hc Hend.
      assert (Han : m_androidUrl (self w) = false).
      { destruct (m_androidUrl (self w)); [|reflexivity].
        rewrite (Ha eq_refl) in Hs. discriminate Hs. }
      destruct (Hq Han) as [q0 Eq].
      assert (Hnb : m_networkBuffer (self w) = None)
        by (apply Hb; rewrite Hs; reflexivity).
      set (w1 := post (didReceiveResponse (WebResponse_of_request q))
                      (with_self (with_loadState Response) w)).
      assert (E : OnResponseStarted q w = startReading w1).
      { unfold response_failed in Hf. apply negb_false_iff in Hf.
        unfold w1. clear - Hs Hl Hf. wreck w. simpl in Hs, Hl. subst.
        unfold OnResponseStarted. cbn -[startReading]. rewrite Hf. reflexivity. }
      destruct (startReading_ends chunks w1 q0 l last rest success)
        as (w' & pre & t & H1 & H2 & H3 & H4 & H5);
        try reflexivity; try assumption.
      exists w'. split; [rewrite E; exact H1|].
      apply (ended_intro success w w'
               (didReceiveResponse (WebResponse_of_request q) :: pre) t Hnt H2).
      * rewrite H3. unfold w1. simpl. rewrite <- !app_assoc. reflexivity.
      * exact H4.
      * constructor; [reflexivity|exact H5].
  - (* OnReadCompleted *)
    intros Hs q n.
    assert (Hlive : live w).
    { unfold live. destruct (m_loadState (self w)); try discriminate Hs; reflexivity. }
    destruct (Hfacts Hlive) as (Hnt & (l & Hl) & Hq & Ha & _).
    split.
    + intros Hf. eexists. split.
      * unfold OnReadCompleted, bind at 1, gets, bind at 1, ASSERT.
        rewrite Hs. cbn [ret]. rewrite Hf.
        apply (finish_spec false w l Hlive Hl).
      * eapply (ended_intro false w _ [] _ Hnt); try reflexivity. constructor.
    + intros chunks last rest success Hok Hio Hc Hend.
      assert (Han : m_androidUrl (self w) = false).
      { destruct (m_androidUrl (self w)); [|reflexivity].
        rewrite (Ha eq_refl) in Hs. discriminate Hs. }
      destruct (Hq Han) as [q0 Eq].
      assert (E : OnReadCompleted (Some q) n w = startReading (forward n w)).
      { unfold OnReadCompleted, bind at 1, gets, bind at 1, ASSERT.
        rewrite Hs. cbn [ret]. rewrite Hok.
        apply (forward_spec n w l startReading Hl). }
      destruct (startReading_ends chunks (forward n w) q0 l last rest success)
        as (w' & pre & t & H1 & H2 & H3 & H4 & H5);
        try reflexivity; try assumption.
      exists w'. split; [rewrite E; exact H1|].
      apply (ended_intro success w w'
               (didReceiveData (m_networkBuffer (self w)) n :: pre) t Hnt H2).
      * rewrite H3. simpl. rewrite <- !app_assoc. reflexivity.
      * exact H4.
      * constructor; [reflexivity|exact H5].
  - (* the destructor *)
    intros w' Hd.
    destruct (Inv_terminals w (reachable_Inv w Hr)) as [Hcount _].
    rewrite Hcount.
    unfold destroy, bind, gets, ASSERT in Hd.
    destruct (m_loadState (self w)); cbn in Hd; try discriminate Hd; reflexivity.
Qed.

End Collaborators.

(** ** The theorems at concrete requests *)

Notation "'sample_run'" :=
  (run sample_mkGURL sample_DataURL_Parse sample_GetMimeTypeFromFile sample_asset_open).
Notation "'sample_reachable'" :=
  (reachable sample_mkGURL sample_DataURL_Parse sample_GetMimeTypeFromFile
             sample_asset_open).
Notation "'sample_network'" :=
  (WebRequest_new sample_mkGURL 7 (sample_request "http://example.org/") ok_status
                  sample_answers).
Notation "'sample_load'" :=
  [op_start false;
   op_OnResponseStarted (Some sample_URLRequest);
   op_OnReadCompleted (Some sample_URLRequest) 3].
Notation "'sample_reading'" :=
  (world_after
     (sample_run [op_start false; op_OnResponseStarted (Some sample_URLRequest)]
                 sample_network)
     sample_network).
Notation "'sample_started'" :=
  (world_after (sample_run [op_start false] sample_network) sample_network).

Lemma sample_reading_reachable : sample_reachable sample_reading.
Proof.
  exists sample_network, [op_start false; op_OnResponseStarted (Some sample_URLRequest)].
  split; [constructor|vm_compute; reflexivity].
Defined.

Lemma sample_started_reachable : sample_reachable sample_started.
Proof.
  exists sample_network, [op_start false].
  split; [constructor|vm_compute; reflexivity].
Defined.

Lemma terminal_notification_once_witness :
  let w := WebRequest_new_android 7 (sample_request "content://mail/att?image/png")
                                  5 sample_stream in
  sample_reachable w /\
  m_loadState (self w) = Created /\
  m_androidUrl (self w) = true /\
  m_inputStream (self w) <> 0 /\
  stream_ends (stream_reads w) = true /\
  exists w',
    start sample_mkGURL sample_DataURL_Parse sample_GetMimeTypeFromFile
          sample_asset_open false w = Returned (tt, w') /\
    ended true w w'.
Proof.
  intros w.
  assert (H0 : sample_reachable w).
  { exists w, []. split; [constructor|reflexivity]. }
  assert (H1 : m_loadState (self w) = Created) by reflexivity.
  assert (H2 : m_androidUrl (self w) = true) by reflexivity.
  assert (H3 : m_inputStream (self w) <> 0) by discriminate.
  assert (H4 : stream_ends (stream_reads w) = true) by reflexivity.
  repeat (split; [assumption|]).
  pose proof (terminal_notification_once sample_mkGURL sample_DataURL_Parse
                sample_GetMimeTypeFromFile sample_asset_open w H0) as X.
  destruct X as (_ & X & _).
  destruct (X H1 H2 false) as [_ X2].
  exact (X2 H3 H4).
Defined.


Lemma cancel_idempotent_witness :
  sample_reachable sample_reading /\
  cancel sample_reading =
    Returned (tt, finished true (log_call call_Cancel sample_reading)) /\
  mainThread (finished true (log_call call_Cancel sample_reading)) =
    mainThread sample_reading ++ [didFinishLoading] /\
  cancel (finished true (log_call call_Cancel sample_reading)) =
    Returned (tt, finished true (log_call call_Cancel sample_reading)).
Proof.
  pose proof (cancel_idempotent sample_mkGURL sample_DataURL_Parse
                sample_GetMimeTypeFromFile sample_asset_open
                sample_reading sample_reading_reachable) as (_ & Hlive & Htwice).
  assert (Hs : In (m_loadState (self sample_reading)) [Started; Response; GotData]).
  { vm_compute. right. right. left. reflexivity. }
  destruct (Hlive Hs) as (_ & Hc & Hm & _).
  split; [exact sample_reading_reachable|].
  split; [exact Hc|]. split; [exact Hm|].
  exact (proj1 (Htwice _ Hc)).
Defined.

Lemma startReading_turn_witness :
  let w := with_self (with_loadState Response) sample_network in
  let r := {| rr_ret := true; rr_bytes := 5; rr_status := ok_status |} in
  let rest := tl sample_answers in
  reading_state (m_loadState (self w)) = true /\
  m_networkBuffer (self w) = None /\
  m_request (self w) = Some sample_URLRequest /\
  m_urlLoader (self w) = Some 7%nat /\
  io_reads w = r :: rest /\
  startReading w = startReading (forward 5 (after_read r rest w)).
Proof.
  intros w r rest.
  assert (H1 : reading_state (m_loadState (self w)) = true) by reflexivity.
  assert (H2 : m_networkBuffer (self w) = None) by reflexivity.
  assert (H3 : m_request (self w) = Some sample_URLRequest) by reflexivity.
  assert (H4 : m_urlLoader (self w) = Some 7%nat) by reflexivity.
  assert (H5 : io_reads w = r :: rest) by reflexivity.
  repeat (split; [assumption|]).
  destruct (startReading_turn w sample_URLRequest 7 r rest H1 H2 H3 H4 H5)
    as (_ & Hpos & _).
  apply Hpos; [reflexivity|reflexivity].
Defined.

Lemma response_started_witness :
  m_loadState (self sample_started) = Started /\
  m_urlLoader (self sample_started) = Some 7%nat /\
  response_failed sample_failed_request = true /\
  sample_reachable sample_started /\
  forall ops w',
    sample_run (op_OnResponseStarted sample_failed_request :: ops) sample_started =
      Returned (tt, w') ->
    count is_didFail (mainThread w') = 1%nat /\
    count is_didReceiveResponse (mainThread w') = O /\
    count is_data (mainThread w') = O.
Proof.
  assert (H1 : m_loadState (self sample_started) = Started) by reflexivity.
  assert (H2 : m_urlLoader (self sample_started) = Some 7%nat) by reflexivity.
  assert (H3 : response_failed sample_failed_request = true) by reflexivity.
  repeat (split; [assumption|]).
  split; [exact sample_started_reachable|].
  destruct (response_started sample_mkGURL sample_DataURL_Parse
              sample_GetMimeTypeFromFile sample_asset_open
              sample_failed_request sample_started 7 H1 H2) as (_ & _ & _ & H).
  exact (H H3 sample_started_reachable).
Defined.

Lemma data_url_witness :
  let u := sample_mkGURL "data:text/plain,hello" in
  let w := with_self (with_loadState Started)
             (WebRequest_new sample_mkGURL 7 (sample_request "data:text/plain,hello")
                             ok_status []) in
  live w /\
  m_urlLoader (self w) = Some 7%nat /\
  sample_DataURL_Parse u = Some ("text/plain", "US-ASCII", "hello") /\
  mainThread (world_after (handleDataURL sample_DataURL_Parse u w) w) =
    [didReceiveResponse
       (WebResponse_of_fields "data:text/plain,hello" "text/plain" 5 "US-ASCII" 200);
     didReceiveDataUrl "hello";
     didFinishLoading].
Proof.
  intros u w.
  assert (H1 : live w) by reflexivity.
  assert (H2 : m_urlLoader (self w) = Some 7%nat) by reflexivity.
  assert (H3 : sample_DataURL_Parse u = Some ("text/plain", "US-ASCII", "hello"))
    by reflexivity.
  repeat (split; [assumption|]).
  destruct (data_url sample_DataURL_Parse u w 7 H1 H2) as (Hparsed & _).
  destruct (Hparsed _ _ _ H3) as (_ & Hret & _).
  rewrite Hret. reflexivity.
Defined.

Lemma null_stream_fails_witness :
  let w := WebRequest_new_android 7 (sample_request "file:///android_asset/a.html")
                                  0 sample_stream in
  m_loadState (self w) = Created /\
  m_androidUrl (self w) = true /\
  m_inputStream (self w) = 0 /\
  m_urlLoader (self w) = Some 7%nat /\
  exists w',
    start sample_mkGURL sample_DataURL_Parse sample_GetMimeTypeFromFile
          sample_asset_open false w = Returned (tt, w') /\
    mainThread w' =
      [didFail (WebResponse_of_fields "file:///android_asset/a.html" EmptyString 0 EmptyString 0)] /\
    m_loadState (self w') = Finished.
Proof.
  intros w.
  assert (H1 : m_loadState (self w) = Created) by reflexivity.
  assert (H2 : m_androidUrl (self w) = true) by reflexivity.
  assert (H3 : m_inputStream (self w) = 0) by reflexivity.
  assert (H4 : m_urlLoader (self w) = Some 7%nat) by reflexivity.
  repeat (split; [assumption|]).
  destruct (null_stream_fails sample_mkGURL sample_DataURL_Parse
              sample_GetMimeTypeFromFile sample_asset_open false w 7 H1 H2 H3 H4)
    as (w' & Hs & Hm & Hf & _).
  exists w'. split; [exact Hs|]. split; [exact Hm|exact Hf].
Defined.

Lemma read_completed_empty_witness :
  reading_state (m_loadState (self sample_reading)) = true /\
  m_urlLoader (self sample_reading) = Some 7%nat /\
  is_success (status sample_URLRequest) = true /\
  OnReadCompleted (Some sample_URLRequest) 0 sample_reading =
    startReading (forward 0 sample_reading) /\
  mainThread (forward 0 sample_reading) =
    mainThread sample_reading ++
      [didReceiveData (Some {| buf_id := 1; buf_size := 32768 |}) 0].
Proof.
  assert (H1 : reading_state (m_loadState (self sample_reading)) = true) by reflexivity.
  assert (H2 : m_urlLoader (self sample_reading) = Some 7%nat) by reflexivity.
  assert (H3 : is_success (status sample_URLRequest) = true) by reflexivity.
  repeat (split; [assumption|]).
  destruct (read_completed_empty sample_reading 7 sample_URLRequest H1 H2 H3)
    as (Hc & _ & Hm & _).
  split; [exact Hc|exact Hm].
Defined.

Lemma stream_loop_witness :
  let w := with_self (with_loadState Started)
             (WebRequest_new_android 7 (sample_request "content://mail/att?image/png")
                                     5 sample_stream) in
  m_inputStream (self w) <> 0 /\
  live w /\
  m_urlLoader (self w) = Some 7%nat /\
  stream_ends (stream_reads w) = true /\
  exists w',
    handleAndroidURL sample_GetMimeTypeFromFile w = Returned (tt, w') /\
    mainThread w' =
      [didReceiveResponse
         (WebResponse_of_fields "content://mail/att?image/png" "image/png" 0 EmptyString 200);
       didReceiveAndroidFileData [x68; x69];
       didReceiveAndroidFileData [];
       didReceiveAndroidFileData [x21];
       didFinishLoading].
Proof.
  intros w.
  assert (H1 : m_inputStream (self w) <> 0) by discriminate.
  assert (H2 : live w) by reflexivity.
  assert (H3 : m_urlLoader (self w) = Some 7%nat) by reflexivity.
  assert (H4 : stream_ends (stream_reads w) = true) by reflexivity.
  repeat (split; [assumption|]).
  destruct (stream_loop sample_GetMimeTypeFromFile w 7 H1 H2 H3 H4)
    as (w' & Hr & Hm & _).
  exists w'. split; [exact Hr|exact Hm].
Defined.

(** ** The further properties at concrete requests *)

Notation "'sample_step'" :=
  (step sample_mkGURL sample_DataURL_Parse sample_GetMimeTypeFromFile sample_asset_open).
Notation "'sample_start'" :=
  (start sample_mkGURL sample_DataURL_Parse sample_GetMimeTypeFromFile sample_asset_open).
Notation "'sample_done'" :=
  (world_after (sample_run sample_load sample_network) sample_network).
Notation "'sample_android'" :=
  (WebRequest_new_android 7 (sample_request "content://mail/att?image/png")
                          5 sample_stream).

Lemma sample_done_reachable : sample_reachable sample_done.
Proof.
  exists sample_network, sample_load.
  split; [constructor|vm_compute; reflexivity].
Defined.

Lemma finished_released_witness :
  sample_reachable sample_done /\
  state_leb Finished (m_loadState (self sample_done)) = true /\
  Released sample_done.
Proof.
  assert (H : state_leb Finished (m_loadState (self sample_done)) = true)
    by (vm_compute; reflexivity).
  split; [exact sample_done_reachable|]. split; [exact H|].
  exact (finished_released sample_mkGURL sample_DataURL_Parse
           sample_GetMimeTypeFromFile sample_asset_open
           sample_done sample_done_reachable H).
Defined.

Lemma notifications_in_order_witness :
  sample_reachable sample_done /\
  (count is_didReceiveResponse (mainThread sample_done) <= 1)%nat.
Proof.
  split; [exact sample_done_reachable|].
  pose proof (notifications_in_order sample_mkGURL sample_DataURL_Parse
                sample_GetMimeTypeFromFile sample_asset_open
                sample_done sample_done_reachable) as X.
  destruct X as (_ & X & _). exact X.
Defined.

Lemma buffers_in_order_witness :
  sample_reachable sample_done /\
  map buf_id (reads_of (calls sample_done)) = seq 0 (buffers_allocated sample_done).
Proof.
  split; [exact sample_done_reachable|].
  pose proof (buffers_in_order sample_mkGURL sample_DataURL_Parse
                sample_GetMimeTypeFromFile sample_asset_open
                sample_done sample_done_reachable) as X.
  destruct X as (X & _). exact X.
Defined.

Lemma transport_in_order_witness :
  sample_reachable sample_reading /\
  exists tp,
    transport_protocol Configuring (calls sample_reading) = Some tp /\
    (m_loadState (self sample_reading) = Created -> tp = Configuring) /\
    (In (m_loadState (self sample_reading)) [Started; Response; GotData] ->
     tp = Running).
Proof.
  split; [exact sample_reading_reachable|].
  exact (transport_in_order sample_mkGURL sample_DataURL_Parse
           sample_GetMimeTypeFromFile sample_asset_open
           sample_reading sample_reading_reachable).
Defined.

Lemma load_state_advances_witness :
  sample_run sample_load sample_network = Returned (tt, sample_done) /\
  LoadState_rank (m_loadState (self sample_network)) <=
  LoadState_rank (m_loadState (self sample_done)).
Proof.
  assert (E : sample_run sample_load sample_network = Returned (tt, sample_done))
    by (vm_compute; reflexivity).
  split; [exact E|].
  exact (load_state_advances sample_mkGURL sample_DataURL_Parse
           sample_GetMimeTypeFromFile sample_asset_open
           sample_load sample_network sample_done E).
Defined.


Lemma start_only_once_witness :
  sample_start false sample_network = Returned (tt, sample_started) /\
  sample_run [op_OnResponseStarted (Some sample_URLRequest)] sample_started =
    Returned (tt, sample_reading) /\
  sample_start true sample_reading =
    Crashed (AssertionFailed "Start called on a WebRequest not in CREATED state: (%s)").
Proof.
  assert (E1 : sample_start false sample_network = Returned (tt, sample_started))
    by (vm_compute; reflexivity).
  assert (E2 : sample_run [op_OnResponseStarted (Some sample_URLRequest)] sample_started =
               Returned (tt, sample_reading))
    by (vm_compute; reflexivity).
  split; [exact E1|]. split; [exact E2|].
  pose proof (start_only_once sample_mkGURL sample_DataURL_Parse
                sample_GetMimeTypeFromFile sample_asset_open
                false sample_network sample_started
                [op_OnResponseStarted (Some sample_URLRequest)] sample_reading
                E1 E2) as X.
  destruct X as [X _]. exact (X true).
Defined.

Lemma response_closes_negotiation_witness :
  OnResponseStarted (Some sample_URLRequest) sample_started =
    Returned (tt, sample_reading) /\
  sample_run [op_OnReadCompleted (Some sample_URLRequest) 3] sample_reading =
    Returned (tt, sample_done) /\
  cancelAuth sample_done =
    Crashed (AssertionFailed
               "cancelAuth called on a WebRequest not in STARTED state (state=%d)").
Proof.
  assert (E1 : OnResponseStarted (Some sample_URLRequest) sample_started =
               Returned (tt, sample_reading))
    by (vm_compute; reflexivity).
  assert (E2 : sample_run [op_OnReadCompleted (Some sample_URLRequest) 3] sample_reading =
               Returned (tt, sample_done))
    by (vm_compute; reflexivity).
  split; [exact E1|]. split; [exact E2|].
  pose proof (response_closes_negotiation sample_mkGURL sample_DataURL_Parse
                sample_GetMimeTypeFromFile sample_asset_open
                (Some sample_URLRequest) sample_started sample_reading
                [op_OnReadCompleted (Some sample_URLRequest) 3] sample_done
                E1 E2) as X.
  destruct X as (_ & X & _). exact X.
Defined.

Lemma mime_type_from_query_witness :
  find_last_of "image/png" "?"%char = None /\
  androidMimeType sample_GetMimeTypeFromFile "content://mail/att?image/png" =
    "image/png".
Proof.
  assert (H : find_last_of "image/png" "?"%char = None) by reflexivity.
  split; [exact H|].
  exact (mime_type_from_query sample_GetMimeTypeFromFile "content://mail/att"
                              "image/png" H).
Defined.

Lemma browser_url_witness :
  let u := sample_mkGURL "browser:incognito" in
  let w := with_self (with_loadState Started)
             (WebRequest_new sample_mkGURL 7 (sample_request "browser:incognito")
                             ok_status []) in
  live w /\
  m_urlLoader (self w) = Some 7%nat /\
  handleBrowserURL sample_mkGURL sample_DataURL_Parse sample_asset_open u w =
    handleDataURL sample_DataURL_Parse (sample_mkGURL browser_prefix) w.
Proof.
  intros u w.
  assert (H1 : live w) by reflexivity.
  assert (H2 : m_urlLoader (self w) = Some 7%nat) by reflexivity.
  split; [exact H1|]. split; [exact H2|].
  pose proof (browser_url sample_mkGURL sample_DataURL_Parse sample_asset_open
                u w 7 H1 H2) as X.
  destruct X as (_ & _ & X). apply X. right. reflexivity.
Defined.

Lemma local_url_completes_witness :
  SchemeIs (sample_mkGURL (wr_url (sample_request "data:text/plain,hello"))) "data" = true /\
  exists w',
    sample_start false
      (WebRequest_new sample_mkGURL 7 (sample_request "data:text/plain,hello")
                      ok_status sample_answers) = Returned (tt, w') /\
    m_loadState (self w') = Finished /\
    io_reads w' = sample_answers.
Proof.
  assert (H : SchemeIs (sample_mkGURL (wr_url (sample_request "data:text/plain,hello")))
                       "data" = true) by reflexivity.
  split; [exact H|].
  pose proof (local_url_completes sample_mkGURL sample_DataURL_Parse
                sample_GetMimeTypeFromFile sample_asset_open
                false 7 (sample_request "data:text/plain,hello") ok_status
                sample_answers (or_introl H)) as X.
  destruct X as (w' & X1 & X2 & _ & _ & X5).
  exists w'. split; [exact X1|]. split; [exact X2|exact X5].
Defined.

Lemma uploads_in_order_witness :
  m_loadState (self sample_network) = Created /\
  m_request (self sample_network) = Some sample_URLRequest /\
  exists w',
    sample_run (map op_AppendBytesToUpload [[x01]; [x02; x03]]) sample_network =
      Returned (tt, w') /\
    calls w' =
      calls sample_network ++
        map call_AppendBytesToUpload [[x01]; [x02; x03]].
Proof.
  assert (H1 : m_loadState (self sample_network) = Created) by reflexivity.
  assert (H2 : m_request (self sample_network) = Some sample_URLRequest) by reflexivity.
  split; [exact H1|]. split; [exact H2|].
  pose proof (uploads_in_order sample_mkGURL sample_DataURL_Parse
                sample_GetMimeTypeFromFile sample_asset_open
                [[x01]; [x02; x03]] sample_network sample_URLRequest H1 H2) as X.
  destruct X as (w' & X1 & _ & _ & X4).
  exists w'. split; [exact X1|exact X4].
Defined.

Lemma android_has_no_transport_witness :
  sample_reachable sample_android /\
  m_androidUrl (self sample_android) = true /\
  m_request (self sample_android) = None /\
  exists f, cancelAuth sample_android = Crashed f.
Proof.
  assert (H1 : sample_reachable sample_android).
  { exists sample_android, []. split; [constructor|reflexivity]. }
  assert (H2 : m_androidUrl (self sample_android) = true) by reflexivity.
  split; [exact H1|]. split; [exact H2|].
  pose proof (android_has_no_transport sample_mkGURL sample_DataURL_Parse
                sample_GetMimeTypeFromFile sample_asset_open
                sample_android H1 H2) as X.
  destruct X as (X1 & _ & _ & _ & X5). split; [exact X1|exact X5].
Defined.

Lemma stream_bytes_posted_witness :
  let w := with_self (with_loadState Started) sample_android in
  m_inputStream (self w) <> 0 /\
  live w /\
  m_urlLoader (self w) = Some 7%nat /\
  stream_ends (stream_reads w) = true /\
  Forall fits (stream_taken (stream_reads w)) /\
  exists w',
    handleAndroidURL sample_GetMimeTypeFromFile w = Returned (tt, w') /\
    stream_reads w' = stream_rest (stream_reads w).
Proof.
  intros w.
  assert (H1 : m_inputStream (self w) <> 0) by discriminate.
  assert (H2 : live w) by reflexivity.
  assert (H3 : m_urlLoader (self w) = Some 7%nat) by reflexivity.
  assert (H4 : stream_ends (stream_reads w) = true) by reflexivity.
  assert (H5 : Forall fits (stream_taken (stream_reads w))).
  { simpl. repeat constructor; unfold fits; simpl; lia. }
  repeat (split; [assumption|]).
  pose proof (stream_bytes_posted sample_GetMimeTypeFromFile w 7 H1 H2 H3 H4 H5) as X.
  destruct X as (w' & X1 & _ & X3).
  exists w'. split; [exact X1|exact X3].
Defined.

Lemma startReading_to_the_end_witness :
  let r1 := {| rr_ret := true; rr_bytes := 5; rr_status := ok_status |} in
  let r2 := {| rr_ret := true; rr_bytes := 7; rr_status := ok_status |} in
  let last := {| rr_ret := true; rr_bytes := 0; rr_status := ok_status |} in
  let w := with_self (with_loadState Response)
             (WebRequest_new sample_mkGURL 7 (sample_request "http://example.org/")
                             ok_status [r1; r2; last]) in
  reading_state (m_loadState (self w)) = true /\
  m_networkBuffer (self w) = None /\
  m_request (self w) = Some sample_URLRequest /\
  m_urlLoader (self w) = Some 7%nat /\
  Forall read_some [r1; r2] /\
  exists w',
    startReading w = Returned (tt, w') /\
    mainThread w' =
      mainThread w ++ data_chunks (buffers_allocated w) [r1; r2] ++ [didFinishLoading].
Proof.
  intros r1 r2 last w.
  assert (H1 : reading_state (m_loadState (self w)) = true) by reflexivity.
  assert (H2 : m_networkBuffer (self w) = None) by reflexivity.
  assert (H3 : m_request (self w) = Some sample_URLRequest) by reflexivity.
  assert (H4 : m_urlLoader (self w) = Some 7%nat) by reflexivity.
  assert (H5 : Forall read_some [r1; r2]).
  { repeat constructor; discriminate. }
  repeat (split; [assumption|]).
  pose proof (startReading_to_the_end [r1; r2] w sample_URLRequest 7 last []
                H1 H2 H3 H4 H5 eq_refl eq_refl eq_refl) as X.
  destruct X as (w' & X1 & _ & X3 & _).
  exists w'. split; [exact X1|exact X3].
Defined.

Lemma network_start_witness :
  SchemeIs (sample_mkGURL (wr_url (sample_request "http://example.org/"))) "data" = false /\
  SchemeIs (sample_mkGURL (wr_url (sample_request "http://example.org/"))) "browser" = false /\
  exists w',
    sample_start true sample_network = Returned (tt, w') /\
    calls w' = [call_SetExtraRequestHeaders EmptyString;
                call_set_referrer EmptyString;
                call_set_method "GET";
                call_set_context true;
                call_Start].
Proof.
  assert (H1 : SchemeIs (sample_mkGURL (wr_url (sample_request "http://example.org/")))
                        "data" = false) by reflexivity.
  assert (H2 : SchemeIs (sample_mkGURL (wr_url (sample_request "http://example.org/")))
                        "browser" = false) by reflexivity.
  split; [exact H1|]. split; [exact H2|].
  pose proof (network_start sample_mkGURL sample_DataURL_Parse
                sample_GetMimeTypeFromFile sample_asset_open
                true 7 (sample_request "http://example.org/") ok_status
                sample_answers H1 H2) as X.
  destruct X as (w' & X1 & _ & X3 & _).
  exists w'. split; [exact X1|exact X3].
Defined.

Lemma live_request_holds_references_witness :
  sample_reachable sample_reading /\
  live sample_reading /\
  m_urlLoader (self sample_reading) <> None.
Proof.
  assert (H : live sample_reading) by (vm_compute; reflexivity).
  split; [exact sample_reading_reachable|]. split; [exact H|].
  pose proof (live_request_holds_references sample_mkGURL sample_DataURL_Parse
                sample_GetMimeTypeFromFile sample_asset_open
                sample_reading sample_reading_reachable H) as X.
  destruct X as (X & _). exact X.
Defined.
